(** * publicationList: the conversion pipeline and the snapshot viewer

    A shallow embedding of [database_maker.py] (load_data, run_conversion)
    and of the data path of [database_viewer.py] (load_database,
    DatabaseViewer.apply_filters), with the properties of the
    specification stated over it.

    Python values are modelled as the interpreter has them: a [str] is a
    sequence of Unicode code points, an [int] is an unbounded integer, a
    [float] is an IEEE-754 binary64 value.  A pandas DataFrame is a row
    index together with an ordered list of named columns, which is how
    pandas stores it; column labels may repeat. *)

From Stdlib Require Import String Ascii List Bool NArith ZArith Lia.
From Stdlib Require Import Permutation DecimalString.
From Stdlib Require Import Floats.SpecFloat.
Import ListNotations.

Set Implicit Arguments.

(* ================================================================== *)
(** * Python strings *)
(* ================================================================== *)

Module PyStr.

(** A Python [str]: its code points, in order. *)
Definition pystr := list N.

(** Literals are written as Rocq strings (UTF-8 bytes) and decoded. *)
Fixpoint utf8_decode (need : nat) (acc : N) (bs : list N) : pystr :=
  match bs with
  | [] => []
  | b :: rest =>
      match need with
      | O =>
          if (b <? 128)%N then b :: utf8_decode 0 0%N rest
          else if (b <? 224)%N then utf8_decode 1 (b - 192)%N rest
          else if (b <? 240)%N then utf8_decode 2 (b - 224)%N rest
          else utf8_decode 3 (b - 240)%N rest
      | S O => (acc * 64 + (b - 128))%N :: utf8_decode 0 0%N rest
      | S k => utf8_decode k (acc * 64 + (b - 128))%N rest
      end
  end.

Definition lit (s : string) : pystr :=
  utf8_decode 0 0%N (map N_of_ascii (list_ascii_of_string s)).

(** [a == b] on strings. *)
Fixpoint eqb (a b : pystr) : bool :=
  match a, b with
  | [], [] => true
  | x :: a', y :: b' => (x =? y)%N && eqb a' b'
  | _, _ => false
  end.

(** [name in names] on a list of strings. *)
Definition mem (name : pystr) (names : list pystr) : bool :=
  existsb (eqb name) names.

(** The code points [str.strip()] removes when called without argument
    (CPython's [_PyUnicode_IsWhitespace]). *)
Definition isspace (c : N) : bool :=
  ((9 <=? c) && (c <=? 13) || (28 <=? c) && (c <=? 32)
   || (c =? 133) || (c =? 160) || (c =? 5760)
   || (8192 <=? c) && (c <=? 8202)
   || (c =? 8232) || (c =? 8233) || (c =? 8239) || (c =? 8287)
   || (c =? 12288))%N.

Fixpoint lstrip (s : pystr) : pystr :=
  match s with
  | [] => []
  | c :: rest => if isspace c then lstrip rest else s
  end.

Definition rstrip (s : pystr) : pystr := rev (lstrip (rev s)).

(** [s.strip()] *)
Definition strip (s : pystr) : pystr := rstrip (lstrip s).

Definition is_ascii (c : N) : bool := (c <? 128)%N.

Definition ascii_lower (c : N) : N :=
  if ((65 <=? c) && (c <=? 90))%N then (c + 32)%N else c.

(** [s[:n]] for a non-negative [n]. *)
Definition slice_to (n : nat) (s : pystr) : pystr := firstn n s.

End PyStr.

Import PyStr.

(** What the code takes from the Python runtime and from pandas, and whose
    tables and algorithms are not part of the repository. *)
Class Runtime : Type := {
  (** [str.lower()] on a string that holds a non-ASCII code point (the
      Unicode case tables, with the context rule for final sigma). *)
  unicode_lower : pystr -> pystr;
  (** [str(f)] for a float. *)
  float_str : spec_float -> pystr;
  (** How [pd.to_numeric] reads one string; [None] when it cannot. *)
  numeric_of_str : pystr -> option spec_float;
  (** [float(s)]; [None] stands for ValueError. *)
  float_of_str : pystr -> option spec_float
}.

(** [s.lower()] *)
Definition lower `{Runtime} (s : pystr) : pystr :=
  if forallb is_ascii s then map ascii_lower s else unicode_lower s.

(* ================================================================== *)
(** * Exceptions and fallible computations *)
(* ================================================================== *)

Inductive exn : Type :=
| KeyError (missing : list pystr)
| AttributeError
| IndexError
| TypeError
| ValueError.

Definition result (A : Type) : Type := (exn + A)%type.

Definition ret {A} (a : A) : result A := inr a.
Definition raise {A} (e : exn) : result A := inl e.
Definition bind {A B} (m : result A) (k : A -> result B) : result B :=
  match m with
  | inl e => inl e
  | inr a => k a
  end.

Notation "x <- m ;; k" := (bind m (fun x => k))
  (at level 61, m at next level, right associativity).

(** A list comprehension whose body may raise. *)
Fixpoint mapM {A B} (f : A -> result B) (l : list A) : result (list B) :=
  match l with
  | [] => ret []
  | a :: rest => b <- f a ;; bs <- mapM f rest ;; ret (b :: bs)
  end.

(** [l[i]] on a Python list: a negative index counts from the end. *)
Definition py_getitem {A} (l : list A) (i : Z) : result A :=
  let n := Z.of_nat (length l) in
  let j := if (i <? 0)%Z then (i + n)%Z else i in
  if ((j <? 0) || (n <=? j))%Z then raise IndexError
  else match nth_error l (Z.to_nat j) with
       | Some a => ret a
       | None => raise IndexError
       end.

(* ================================================================== *)
(** * DataFrames of text *)
(* ================================================================== *)

(** After [astype(str)] every column holds strings.  [index] is the row
    labels; every column is as long as [index]. *)
Record DataFrame : Type := mkDF {
  index : list nat;
  cols : list (pystr * list pystr)
}.

(** [df.columns] *)
Definition columns (df : DataFrame) : list pystr := map fst (cols df).

(** [len(df)] *)
Definition nrows (df : DataFrame) : nat := length (index df).

(** Every column labelled [name], left to right. *)
Definition lookup_all {S} (name : pystr) (cs : list (pystr * S))
  : list (pystr * S) :=
  filter (fun c => eqb (fst c) name) cs.

Definition is_nil {A} (l : list A) : bool :=
  match l with [] => true | _ => false end.

(** [df[names]] with a list of labels: the columns in the order of
    [names] (all of them when a label repeats in [df]); KeyError names the
    labels that are missing. *)
Definition getitem_list (df : DataFrame) (names : list pystr)
  : result DataFrame :=
  let missing := filter (fun n => is_nil (lookup_all n (cols df))) names in
  if is_nil missing
  then ret {| index := index df;
              cols := flat_map (fun n => lookup_all n (cols df)) names |}
  else raise (KeyError missing).

(** [df[name]] with one label is a Series when the label is unique in
    [df] and a DataFrame when it repeats. *)
Inductive item : Type :=
| ItemSeries (s : list pystr)
| ItemFrame (d : DataFrame).

Definition getitem_col (df : DataFrame) (name : pystr) : result item :=
  match lookup_all name (cols df) with
  | [] => raise (KeyError [name])
  | [c] => ret (ItemSeries (snd c))
  | many => ret (ItemFrame {| index := index df; cols := many |})
  end.

(** [x.str]: only a Series has the accessor. *)
Definition str_accessor (x : item) : result (list pystr) :=
  match x with
  | ItemSeries s => ret s
  | ItemFrame _ => raise AttributeError
  end.

(** Keep the positions where [mask] is True. *)
Definition select {A} (mask : list bool) (l : list A) : list A :=
  map fst (filter snd (combine l mask)).

(** [df[mask]] with a boolean Series on the same index. *)
Definition getitem_mask (df : DataFrame) (mask : list bool) : DataFrame :=
  {| index := select mask (index df);
     cols := map (fun c => (fst c, select mask (snd c))) (cols df) |}.

(** [mask.any(axis=1)]: per row, whether some column is True. *)
Definition any_axis1 (n : nat) (bcols : list (list bool)) : list bool :=
  map (fun i => existsb (fun col => nth i col false) bcols) (seq 0 n).

(** [df.empty] *)
Definition empty (df : DataFrame) : bool :=
  is_nil (index df) || is_nil (cols df).

(* ================================================================== *)
(** * database_maker.py *)
(* ================================================================== *)

Module Maker.

(** Metadata columns: these are always retained. *)
Definition METADATA_COLUMNS : list pystr :=
  Eval cbv in
    map lit
      [ "Lp.";
        "Unikatowy Identyfikator Czasopisma";
        "Tytuł 1";
        "issn";
        "e-issn";
        "Tytuł 2";
        "issn 2";
        "e-issn 2";
        "Punkty" ]%string.

Global Arguments METADATA_COLUMNS : simpl never.

(** ** load_data: the coercion of line 70 *)

(** What the parsers put in a cell before the coercion. *)
Inductive pyobj : Type :=
| PStr (s : pystr)
| PInt (z : Z)
| PBool (b : bool)
| PFloat (f : spec_float).

Definition digits (z : Z) : pystr :=
  map N_of_ascii (list_ascii_of_string (NilZero.string_of_int (Z.to_int z))).

(** [str(v)] *)
Definition py_str `{Runtime} (v : pyobj) : pystr :=
  match v with
  | PStr s => s
  | PInt z => digits z
  | PBool true => lit "True"
  | PBool false => lit "False"
  | PFloat f => float_str f
  end.

(** The frame the parser returns. *)
Record RawFrame : Type := mkRaw {
  raw_index : list nat;
  raw_cols : list (pystr * list pyobj)
}.

(** [df.astype(str)] *)
Definition astype_str `{Runtime} (raw : RawFrame) : DataFrame :=
  {| index := raw_index raw;
     cols := map (fun c => (fst c, map py_str (snd c))) (raw_cols raw) |}.

(** A frame of text seen as a frame of objects. *)
Definition as_raw (df : DataFrame) : RawFrame :=
  {| raw_index := index df;
     raw_cols := map (fun c => (fst c, map PStr (snd c))) (cols df) |}.

(** ** run_conversion *)

(** [v.strip().lower() == 'x'], the test of lines 117 and 159. *)
Definition marked `{Runtime} (v : pystr) : bool :=
  eqb (lower (strip v)) (lit "x").

(** Line 93. *)
Definition cat_columns_of (df : DataFrame) : list pystr :=
  filter (fun col => negb (mem col METADATA_COLUMNS)) (columns df).

(** Line 108. *)
Definition invalid_indexes (chosen_indexes : list Z) (max_index : Z)
  : list Z :=
  filter (fun idx => (idx <? 1)%Z || (idx >? max_index)%Z) chosen_indexes.

(** Lines 107-113: the invalid indexes, or the chosen columns. *)
Definition choose_columns (cat_columns : list pystr)
    (chosen_indexes : list Z) : list Z + result (list pystr) :=
  let max_index := Z.of_nat (length cat_columns) in
  let invalid := invalid_indexes chosen_indexes max_index in
  if is_nil invalid
  then inr (mapM (fun idx => py_getitem cat_columns (idx - 1)%Z)
              chosen_indexes)
  else inl invalid.

(** Lines 117-118: the row mask of the filter. *)
Definition row_mask `{Runtime} (df : DataFrame)
    (chosen_cat_columns : list pystr) : result (list bool) :=
  sub <- getitem_list df chosen_cat_columns ;;
  ret (any_axis1 (nrows df) (map (fun c => map marked (snd c)) (cols sub))).

(** Lines 117-123. *)
Definition filter_and_project `{Runtime} (df : DataFrame)
    (chosen_cat_columns : list pystr) : result DataFrame :=
  mask <- row_mask df chosen_cat_columns ;;
  let df_filtered := getitem_mask df mask in
  let columns_to_keep := METADATA_COLUMNS ++ chosen_cat_columns in
  getitem_list df_filtered columns_to_keep.

(** ** The workbook *)

(** A sheet as handed to [to_excel]. *)
Record Sheet : Type := mkSheet {
  sheet_name : pystr;
  sheet_data : DataFrame
}.

(** The [to_excel] calls of one run, in the order they are made.  What
    the writer does when two calls name the same sheet is not
    modelled. *)
Definition Workbook : Type := list Sheet.

Definition to_excel (wb : Workbook) (name : pystr) (df : DataFrame)
  : Workbook :=
  wb ++ [ {| sheet_name := name; sheet_data := df |} ].

(** One turn of the loop of lines 158-177: [None] for [continue]. *)
Definition category_sheet `{Runtime} (df_final : DataFrame) (cat : pystr)
  : result (option Sheet) :=
  col <- getitem_col df_final cat ;;
  texts <- str_accessor col ;;
  let df_cat := getitem_mask df_final (map marked texts) in
  if empty df_cat then ret None
  else
    let columns_to_include := METADATA_COLUMNS ++ [cat] in
    df_cat_filtered <- getitem_list df_cat columns_to_include ;;
    ret (Some {| sheet_name := slice_to 31 cat;
                 sheet_data := df_cat_filtered |}).

(** The loop: the sheets written, and the exception that stopped it. *)
Fixpoint category_sheets `{Runtime} (df_final : DataFrame)
    (cats : list pystr) (wb : Workbook) : Workbook * option exn :=
  match cats with
  | [] => (wb, None)
  | cat :: rest =>
      match category_sheet df_final cat with
      | inl e => (wb, Some e)
      | inr None => category_sheets df_final rest wb
      | inr (Some sh) =>
          category_sheets df_final rest
            (to_excel wb (sheet_name sh) (sheet_data sh))
      end
  end.

(** Lines 141-183. *)
Definition write_workbook `{Runtime} (df_final : DataFrame)
    (chosen_cat_columns : list pystr) : Workbook * option exn :=
  category_sheets df_final chosen_cat_columns
    (to_excel [] (lit "All") df_final).

(** How a run ends, from line 92 on, given the loaded frame and the
    parsed indexes. *)
Inductive outcome : Type :=
| InvalidSelection (invalid : list Z)
    (** lines 109-112: message printed, nothing written *)
| Uncaught (e : exn)
    (** an exception of lines 113-124 leaves the function *)
| Saved (df_final : DataFrame) (wb : Workbook) (failure : option exn)
    (** the snapshot is pickled; [wb] is what reached the workbook and
        [failure] the exception caught at line 180, if any *).

Definition run_conversion `{Runtime} (df : DataFrame)
    (chosen_indexes : list Z) : outcome :=
  let cat_columns := cat_columns_of df in
  match choose_columns cat_columns chosen_indexes with
  | inl invalid => InvalidSelection invalid
  | inr (inl e) => Uncaught e
  | inr (inr chosen_cat_columns) =>
      match filter_and_project df chosen_cat_columns with
      | inl e => Uncaught e
      | inr df_final =>
          let (wb, failure) := write_workbook df_final chosen_cat_columns in
          Saved df_final wb failure
      end
  end.

End Maker.

(* ================================================================== *)
(** * database_viewer.py *)
(* ================================================================== *)

Module Viewer.

(** The viewer's own copy of the list. *)
Definition METADATA_COLUMNS : list pystr :=
  Eval cbv in
    map lit
      [ "Lp.";
        "Unikatowy Identyfikator Czasopisma";
        "Tytuł 1";
        "issn";
        "e-issn";
        "Tytuł 2";
        "issn 2";
        "e-issn 2";
        "Punkty" ]%string.

(** A column of the viewer's frame: text, or float64 after
    [pd.to_numeric] (a column of integers is compared as floats too). *)
Inductive Column : Type :=
| StrCol (l : list pystr)
| NumCol (l : list spec_float).

Record VFrame : Type := mkVF {
  vindex : list nat;
  vcols : list (pystr * Column)
}.

(** [pd.to_numeric(series, errors="coerce")] *)
Definition to_numeric_coerce `{Runtime} (s : list pystr) : list spec_float :=
  map (fun v => match numeric_of_str v with
                | Some f => f
                | None => S754_nan
                end) s.

(** Lines 23-33; [None] is the [return None] of the handler. *)
Definition load_database `{Runtime} (snapshot : DataFrame) : option VFrame :=
  match getitem_col snapshot (lit "Punkty") with
  | inr (ItemSeries s) =>
      Some {| vindex := index snapshot;
              vcols :=
                map (fun c =>
                       if eqb (fst c) (lit "Punkty")
                       then (fst c, NumCol (to_numeric_coerce s))
                       else (fst c, StrCol (snd c)))
                    (cols snapshot) |}
  | _ => None
  end.

(** Line 55: the categorical columns. *)
Definition cat_columns (df : VFrame) : list pystr :=
  filter (fun col => negb (mem col METADATA_COLUMNS)) (map fst (vcols df)).

(** Line 93: what the category box offers. *)
Definition options (df : VFrame) : list pystr := lit "All" :: cat_columns df.

(** [df[name]] for a label that is unique in [df].  A repeated label
    gives a DataFrame, on which neither the comparison of line 195 nor
    [.str] goes through. *)
Definition vgetitem (df : VFrame) (name : pystr) : result Column :=
  match lookup_all name (vcols df) with
  | [] => raise (KeyError [name])
  | [c] => ret (snd c)
  | _ => raise AttributeError
  end.

Definition select_column (mask : list bool) (c : Column) : Column :=
  match c with
  | StrCol l => StrCol (select mask l)
  | NumCol l => NumCol (select mask l)
  end.

(** [df[mask]] *)
Definition vgetitem_mask (df : VFrame) (mask : list bool) : VFrame :=
  {| vindex := select mask (vindex df);
     vcols := map (fun c => (fst c, select_column mask (snd c))) (vcols df) |}.

(** [p >= lo] and [p <= hi] on floats. *)
Definition SFgeb (a b : spec_float) : bool := SFleb b a.

(** The mask of line 195 for one value. *)
Definition in_range (min_points max_points p : spec_float) : bool :=
  SFgeb p min_points && SFleb p max_points.

(** [series >= lo], [series <= hi]: numbers only. *)
Definition range_mask (min_points max_points : spec_float) (c : Column)
  : result (list bool) :=
  match c with
  | NumCol l => ret (map (in_range min_points max_points) l)
  | StrCol _ => raise TypeError
  end.

(** [v.lower() == 'x'], the test of line 198. *)
Definition viewer_marked `{Runtime} (v : pystr) : bool :=
  eqb (lower v) (lit "x").

(** [series.str.lower() == 'x'] *)
Definition category_mask `{Runtime} (c : Column) : result (list bool) :=
  match c with
  | StrCol l => ret (map viewer_marked l)
  | NumCol _ => raise AttributeError
  end.

(** ** sort_values(by="Punkty", ascending=False) *)

(** Whether key [a] may stand before key [b]: larger first, NaN last. *)
Definition before (a b : spec_float) : bool :=
  match b with
  | S754_nan => true
  | _ => SFgeb a b
  end.

Fixpoint insert_key (x : spec_float * nat) (l : list (spec_float * nat))
  : list (spec_float * nat) :=
  match l with
  | [] => [x]
  | y :: rest =>
      if before (fst x) (fst y) then x :: l else y :: insert_key x rest
  end.

(** The positions of [keys] in the order of the sorted frame (equal keys
    keep their order; pandas leaves that order open). *)
Definition sort_order (keys : list spec_float) : list nat :=
  map snd (fold_right insert_key [] (combine keys (seq 0 (length keys)))).

(** [l] rearranged by positions. *)
Definition take {A} (order : list nat) (l : list A) : list A :=
  flat_map (fun i => match nth_error l i with
                     | Some a => [a]
                     | None => []
                     end) order.

Definition take_column (order : list nat) (c : Column) : Column :=
  match c with
  | StrCol l => StrCol (take order l)
  | NumCol l => NumCol (take order l)
  end.

Definition sort_values_desc (df : VFrame) (by_ : pystr) : result VFrame :=
  c <- vgetitem df by_ ;;
  match c with
  | NumCol keys =>
      let order := sort_order keys in
      ret {| vindex := take order (vindex df);
             vcols := map (fun c => (fst c, take_column order (snd c)))
                          (vcols df) |}
  | StrCol _ => raise TypeError
  end.

(** ** apply_filters *)

Inductive filter_result : Type :=
| BadBounds
    (** lines 190-192: error box, the table is left as it was *)
| Crashed (e : exn)
| Shown (current_df : VFrame).

(** Lines 195-200. *)
Definition filter_rows `{Runtime} (df : VFrame)
    (min_points max_points : spec_float) (selected_category : pystr)
  : result VFrame :=
  punkty <- vgetitem df (lit "Punkty") ;;
  mask <- range_mask min_points max_points punkty ;;
  let filtered_df := vgetitem_mask df mask in
  filtered_df <-
    (if negb (eqb selected_category (lit "All"))
     then
       c <- vgetitem filtered_df selected_category ;;
       cmask <- category_mask c ;;
       ret (vgetitem_mask filtered_df cmask)
     else ret filtered_df) ;;
  sort_values_desc filtered_df (lit "Punkty").

Definition apply_filters `{Runtime} (df : VFrame)
    (min_entry max_entry : pystr) (selected_category : pystr)
  : filter_result :=
  match float_of_str min_entry with
  | None => BadBounds
  | Some min_points =>
      match float_of_str max_entry with
      | None => BadBounds
      | Some max_points =>
          match filter_rows df min_points max_points selected_category with
          | inl e => Crashed e
          | inr current_df => Shown current_df
          end
      end
  end.

End Viewer.

(* ================================================================== *)
(** * A small runtime to run the model on ASCII data *)
(* ================================================================== *)

Module Toy.

(** Unsigned decimal integers only, as floats with exponent 0. *)
Fixpoint nat_of_digits (acc : N) (s : pystr) : option N :=
  match s with
  | [] => Some acc
  | c :: rest =>
      if ((48 <=? c) && (c <=? 57))%N
      then nat_of_digits (acc * 10 + (c - 48))%N rest
      else None
  end.

Definition parse (s : pystr) : option spec_float :=
  match s with
  | [] => None
  | _ =>
      match nat_of_digits 0%N s with
      | Some 0%N => Some (S754_zero false)
      | Some (Npos p) => Some (S754_finite false p 0%Z)
      | None => None
      end
  end.

Definition runtime : Runtime :=
  {| unicode_lower := fun s => s;
     float_str := fun _ => lit "nan";
     numeric_of_str := parse;
     float_of_str := parse |}.

End Toy.

(* ================================================================== *)
(** * Datasets and what is observed of them *)
(* ================================================================== *)

Fixpoint unique_labels (names : list pystr) : bool :=
  match names with
  | [] => true
  | n :: rest => negb (mem n rest) && unique_labels rest
  end.

Fixpoint unique_rows (labels : list nat) : bool :=
  match labels with
  | [] => true
  | l :: rest => negb (existsb (Nat.eqb l) rest) && unique_rows rest
  end.

(** Every column is as long as the index. *)
Definition aligned (df : DataFrame) : bool :=
  forallb (fun c => length (snd c) =? nrows df) (cols df).

(** A frame as the readers build it: distinct column labels, distinct row
    labels, full columns. *)
Definition is_frame (df : DataFrame) : bool :=
  unique_labels (columns df) && unique_rows (index df) && aligned df.

(** All nine metadata columns are there. *)
Definition has_metadata (df : DataFrame) : bool :=
  forallb (fun m => mem m (columns df)) Maker.METADATA_COLUMNS.

(** A Dataset of the specification. *)
Definition is_dataset (df : DataFrame) : bool :=
  is_frame df && has_metadata df.

(** The column labelled [name], when exactly one is. *)
Definition column (df : DataFrame) (name : pystr) : option (list pystr) :=
  match lookup_all name (cols df) with
  | [c] => Some (snd c)
  | _ => None
  end.

(** The cell at row position [i] of column [name]. *)
Definition cell (df : DataFrame) (name : pystr) (i : nat) : option pystr :=
  match column df name with
  | Some col => nth_error col i
  | None => None
  end.

(** The first position of a row label. *)
Fixpoint position (l : nat) (labels : list nat) : option nat :=
  match labels with
  | [] => None
  | l' :: rest =>
      if l =? l' then Some 0
      else option_map S (position l rest)
  end.

(** The cell of the row labelled [l] in column [name]. *)
Definition value_at (df : DataFrame) (l : nat) (name : pystr)
  : option pystr :=
  match position l (index df) with
  | Some i => cell df name i
  | None => None
  end.

(** Row position [i] holds a marker in column [c]. *)
Definition marked_at `{Runtime} (df : DataFrame) (c : pystr) (i : nat) : Prop :=
  exists v, cell df c i = Some v /\ Maker.marked v = true.

(** The metadata names that occur in the frame, in canonical order: the
    MetadataColumns of the specification's classifier. *)
Definition present_metadata (df : DataFrame) : list pystr :=
  filter (fun m => mem m (columns df)) Maker.METADATA_COLUMNS.



(* ================================================================== *)
(** * Small tables to run the model on *)
(* ================================================================== *)

Module Examples.

(** A frame from its header and its rows, with the labels 0, 1, ... *)
Definition frame (names : list string) (rows : list (list string))
  : DataFrame :=
  {| index := seq 0 (length rows);
     cols := map (fun p => (lit (fst p),
                            map (fun r => lit (nth (snd p) r ""%string)) rows))
                 (combine names (seq 0 (length names))) |}.

Definition meta : list string :=
  [ "Lp."; "Unikatowy Identyfikator Czasopisma"; "Tytuł 1"; "issn";
    "e-issn"; "Tytuł 2"; "issn 2"; "e-issn 2"; "Punkty" ]%string.

Definition meta_cells (lp points : string) : list string :=
  [ lp; "id"; "title"; "1234-5678"; "8765-4321"; "";
    ""; ""; points ]%string.

(** The end-to-end scenario of the specification. *)
Definition journals_ab : DataFrame :=
  frame (meta ++ ["A"; "B"]%string)
    [ meta_cells "1" "100" ++ ["x"; ""]%string;
      meta_cells "2" "70" ++ [""; "X"]%string;
      meta_cells "3" "n/a" ++ ["no"; "no"]%string ].

(** Five categories; the first row is marked in c1 and c3, the second
    in c2 only. *)
Definition journals_c : DataFrame :=
  frame (meta ++ ["c1"; "c2"; "c3"; "c4"; "c5"]%string)
    [ meta_cells "1" "100" ++ ["X"; "no"; "  x "; ""; ""]%string;
      meta_cells "2" "70" ++ [""; "x"; "nan"; ""; ""]%string ].

(** What selecting category A of [journals_ab] twice leaves: one row,
    and the column A two times. *)
Definition journals_ab_A_twice : DataFrame :=
  frame (meta ++ ["A"; "A"]%string)
    [ meta_cells "1" "100" ++ ["x"; "x"]%string ].

(** A table without the "Punkty" column. *)
Definition no_points : DataFrame :=
  frame (removelast meta ++ ["A"]%string)
    [ removelast (meta_cells "1" "100") ++ ["x"]%string ].

(** A marker written with blanks around it. *)
Definition padded : DataFrame :=
  frame (meta ++ ["A"]%string)
    [ meta_cells "1" "100" ++ ["  x "]%string ].

End Examples.

(* ================================================================== *)
(** * database_maker.py: the loader and the prompt *)
(* ================================================================== *)

(** [int(s)] on a token; [None] stands for ValueError.  The grammar of
    integer literals belongs to the interpreter. *)
Class IntReader : Type := {
  py_int : pystr -> option Z
}.

(** The parsers of pandas: what [pd.read_csv(path, dtype=str)] and
    [pd.read_excel(path, skiprows=[1], engine="openpyxl")] return for a
    path; [None] when they raise. *)
Class Readers : Type := {
  read_csv : pystr -> option Maker.RawFrame;
  read_excel : pystr -> option Maker.RawFrame
}.

Module Prompt.

Definition comma : N := 44%N.

(** [s.split(sep)] for a separator of one code point. *)
Fixpoint split (sep : N) (s : pystr) : list pystr :=
  match s with
  | [] => [[]]
  | c :: rest =>
      if (c =? sep)%N then [] :: split sep rest
      else match split sep rest with
           | tok :: toks => (c :: tok) :: toks
           | [] => [[c]]
           end
  end.

(** [sep.join(toks)] *)
Fixpoint join (sep : N) (toks : list pystr) : pystr :=
  match toks with
  | [] => []
  | [t] => t
  | t :: rest => t ++ sep :: join sep rest
  end.

(** A list comprehension whose body may raise ValueError. *)
Fixpoint traverse {A B} (f : A -> option B) (l : list A) : option (list B) :=
  match l with
  | [] => Some []
  | a :: rest =>
      match f a with
      | None => None
      | Some b =>
          match traverse f rest with
          | None => None
          | Some bs => Some (b :: bs)
          end
      end
  end.

(** [x.strip()] is not empty. *)
Definition nonblank (x : pystr) : bool := negb (is_nil (strip x)).

(** Lines 99-105: the text typed at the prompt to the chosen indexes;
    [None] when some token is not an integer. *)
Definition parse_indexes `{IntReader} (typed : pystr) : option (list Z) :=
  let cols_input := strip typed in
  traverse (fun x => py_int (strip x))
    (filter nonblank (split comma cols_input)).

End Prompt.

Module Loader.

(** [s.endswith(suffix)] *)
Definition endswith (s suffix : pystr) : bool :=
  (length suffix <=? length s)
  && eqb (skipn (length s - length suffix) s) suffix.

(** Lines 54-64. *)
Definition rename_dict : list (pystr * pystr) :=
  Eval cbv in
    map (fun p => (lit (fst p), lit (snd p)))
      [ ("Unnamed: 0", "Lp.");
        ("Unnamed: 1", "Unikatowy Identyfikator Czasopisma");
        ("Unnamed: 2", "Tytuł 1");
        ("Unnamed: 3", "issn");
        ("Unnamed: 4", "e-issn");
        ("Unnamed: 5", "Tytuł 2");
        ("Unnamed: 6", "issn 2");
        ("Unnamed: 7", "e-issn 2");
        ("Unnamed: 8", "Punkty") ]%string.

(** What [rename] makes of one label. *)
Definition rename_label (name : pystr) : pystr :=
  match find (fun kv => eqb (fst kv) name) rename_dict with
  | Some kv => snd kv
  | None => name
  end.

(** [df.rename(columns=rename_dict, inplace=True)] *)
Definition rename (raw : Maker.RawFrame) : Maker.RawFrame :=
  {| Maker.raw_index := Maker.raw_index raw;
     Maker.raw_cols :=
       map (fun c => (rename_label (fst c), snd c)) (Maker.raw_cols raw) |}.

Inductive load_error : Type :=
| UnsupportedFormat
    (** line 69: ValueError *)
| ReadFailed
    (** the parser raised *).

(** load_data, lines 40-75. *)
Definition load_data `{Runtime} `{Readers} (file_path : pystr)
  : load_error + DataFrame :=
  if endswith (lower file_path) (lit ".csv") then
    match read_csv file_path with
    | Some df => inr (Maker.astype_str df)
    | None => inl ReadFailed
    end
  else if endswith (lower file_path) (lit ".xlsx")
          || endswith (lower file_path) (lit ".xls") then
    match read_excel file_path with
    | Some df => inr (Maker.astype_str (rename df))
    | None => inl ReadFailed
    end
  else inl UnsupportedFormat.

(** How a call of run_conversion ends. *)
Inductive run_result : Type :=
| LoadFailed (e : load_error)
    (** lines 88-90 *)
| BadNumbers
    (** lines 102-105 *)
| Ran (o : Maker.outcome).

(** run_conversion from its first line, given the text typed at the
    prompt. *)
Definition run_conversion_file `{Runtime} `{Readers} `{IntReader}
    (original_file typed : pystr) : run_result :=
  match load_data original_file with
  | inl e => LoadFailed e
  | inr df =>
      match Prompt.parse_indexes typed with
      | None => BadNumbers
      | Some chosen_indexes => Ran (Maker.run_conversion df chosen_indexes)
      end
  end.

End Loader.

(** [sub] holds some of the elements of [l], in the order of [l]. *)
Inductive subseq {A : Type} : list A -> list A -> Prop :=
| subseq_nil : subseq [] []
| subseq_skip (x : A) (sub l : list A) : subseq sub l -> subseq sub (x :: l)
| subseq_keep (x : A) (sub l : list A) :
    subseq sub l -> subseq (x :: sub) (x :: l).

(* ================================================================== *)
(** * database_viewer.py: the window *)
(* ================================================================== *)

Module App.

Import Viewer.

(** Lines 112-113. *)
Definition default_cols (df : VFrame) : list pystr :=
  [lit "Tytuł 1"; lit "Punkty"; lit "issn"] ++ cat_columns df.

(** Line 110: [math.ceil(total_columns / 2)]. *)
Definition cols_per_row (df : VFrame) : nat := (length (vcols df) + 1) / 2.

(** The labels under the two rows of check boxes (lines 116 and 129). *)
Definition first_row (df : VFrame) : list pystr :=
  firstn (cols_per_row df) (map fst (vcols df)).
Definition second_row (df : VFrame) : list pystr :=
  skipn (cols_per_row df) (map fst (vcols df)).

(** The variables of the check boxes as the two loops create them, in the
    order of creation. *)
Definition initial_vars (df : VFrame) : list bool :=
  map (fun col => mem col (default_cols df)) (first_row df)
  ++ map (fun col => mem col (default_cols df)) (second_row df).

(** What a cell of the table shows: [str] of a text, of a number, or of
    the Series that [row[col]] is when the label repeats. *)
Inductive shown : Type :=
| ShownText (s : pystr)
| ShownNumber (f : spec_float)
| ShownSeries.

Record Tree : Type := mkTree {
  tree_columns : list pystr;
  tree_rows : list (list (option shown))
}.

(** The fields of DatabaseViewer that the callbacks read and write.
    [vars] holds the check-box variables by position of creation. *)
Record State : Type := mkState {
  df : VFrame;
  current_df : VFrame;
  vars : list bool;
  tree : Tree
}.

(** The position of the variable that [self.column_vars[col]] holds: the
    last one stored under the label. *)
Fixpoint var_position (labels : list pystr) (col : pystr) (p : nat)
  : option nat :=
  match labels with
  | [] => None
  | l :: rest =>
      match var_position rest col (S p) with
      | Some q => Some q
      | None => if eqb l col then Some p else None
      end
  end.

(** [self.column_vars[col].get()] *)
Definition column_var (st : State) (col : pystr) : bool :=
  match var_position (map fst (vcols (df st))) col 0 with
  | Some p => nth p (vars st) false
  | None => false
  end.

(** Line 162. *)
Definition visible_cols (st : State) : list pystr :=
  filter (column_var st) (map fst (vcols (df st))).

(** [row[col]] for the row at position [i]; [None] cannot occur for a
    label of the frame and a position of its index. *)
Definition row_value (d : VFrame) (i : nat) (col : pystr) : option shown :=
  match lookup_all col (vcols d) with
  | [] => None
  | [c] =>
      match snd c with
      | StrCol l => option_map ShownText (nth_error l i)
      | NumCol l => option_map ShownNumber (nth_error l i)
      end
  | _ => Some ShownSeries
  end.

(** populate_table, lines 160-180. *)
Definition populate_table (st : State) (d : VFrame) : State :=
  let visible := visible_cols st in
  if is_nil visible then st
  else
    {| df := df st;
       current_df := current_df st;
       vars := vars st;
       tree :=
         {| tree_columns := visible;
            tree_rows :=
              map (fun i => map (row_value d i) visible)
                  (seq 0 (length (vindex d))) |} |}.

(** __init__, lines 52-59. *)
Definition init (loaded : VFrame) : State :=
  populate_table
    {| df := loaded;
       current_df := loaded;
       vars := initial_vars loaded;
       tree := {| tree_columns := []; tree_rows := [] |} |}
    loaded.

(** update_visible_columns, lines 182-184. *)
Definition update_visible_columns (st : State) : State :=
  populate_table st (current_df st).

Fixpoint flip (p : nat) (l : list bool) : list bool :=
  match l, p with
  | [], _ => []
  | b :: rest, O => negb b :: rest
  | b :: rest, S q => b :: flip q rest
  end.

(** apply_filters as a callback, lines 186-204: on a bad bound or an
    exception nothing is assigned. *)
Definition on_apply_filters `{Runtime} (st : State)
    (min_entry max_entry selected_category : pystr) : State :=
  match apply_filters (df st) min_entry max_entry selected_category with
  | Shown filtered_df =>
      populate_table
        {| df := df st;
           current_df := filtered_df;
           vars := vars st;
           tree := tree st |}
        filtered_df
  | _ => st
  end.

(** What the operator does. *)
Inductive event : Type :=
| Toggle (p : nat)
    (** a click on check box [p]: its variable flips, then the command
        update_visible_columns runs *)
| ApplyFilters (min_entry max_entry selected_category : pystr).

Definition step `{Runtime} (st : State) (e : event) : State :=
  match e with
  | Toggle p =>
      update_visible_columns
        {| df := df st;
           current_df := current_df st;
           vars := flip p (vars st);
           tree := tree st |}
  | ApplyFilters lo hi cat => on_apply_filters st lo hi cat
  end.

Definition run `{Runtime} (st : State) (events : list event) : State :=
  fold_left step events st.

(** The frame the last successful "Apply Filters" of [events] computed,
    [start] when there is none. *)
Fixpoint last_shown `{Runtime} (loaded start : VFrame) (events : list event)
  : VFrame :=
  match events with
  | [] => start
  | Toggle _ :: rest => last_shown loaded start rest
  | ApplyFilters lo hi cat :: rest =>
      match apply_filters loaded lo hi cat with
      | Shown filtered_df => last_shown loaded filtered_df rest
      | _ => last_shown loaded start rest
      end
  end.

End App.

(** The scenario table as the viewer holds it after loading. *)
Module ViewerExamples.

Definition journals_ab : Viewer.VFrame :=
  match Viewer.load_database (H := Toy.runtime) Examples.journals_ab with
  | Some vdf => vdf
  | None => {| Viewer.vindex := []; Viewer.vcols := [] |}
  end.

End ViewerExamples.


(** The keys fall from one row to the next, NaN last: the order that
    [sort_values(by="Punkty", ascending=False)] leaves. *)
Fixpoint descending (keys : list spec_float) : bool :=
  match keys with
  | a :: (b :: _) as rest => Viewer.before a b && descending rest
  | _ => true
  end.

(** A reader of signed decimal integers, to run the prompt on ASCII
    text. *)
Module ToyInt.

Definition read (s : pystr) : option Z :=
  match s with
  | 45%N :: digits =>
      match digits with
      | [] => None
      | _ => option_map (fun n => (- Z.of_N n)%Z) (Toy.nat_of_digits 0%N digits)
      end
  | [] => None
  | _ => option_map Z.of_N (Toy.nat_of_digits 0%N s)
  end.

Definition reader : IntReader := {| py_int := read |}.

End ToyInt.

(** A spreadsheet as the parser returns it, and readers that know one
    file. *)
Module ToyFiles.

Definition sheet : Maker.RawFrame :=
  {| Maker.raw_index := [0; 1];
     Maker.raw_cols :=
       map (fun p => (lit (fst p), snd p))
         [ ("Unnamed: 0", [Maker.PInt 1; Maker.PInt 2]);
           ("Unnamed: 1", [Maker.PInt 100; Maker.PInt 101]);
           ("Unnamed: 2", [Maker.PStr (lit "Acta"); Maker.PStr (lit "Brain")]);
           ("Unnamed: 3", [Maker.PStr (lit "1234-5678"); Maker.PFloat S754_nan]);
           ("Unnamed: 4", [Maker.PFloat S754_nan; Maker.PFloat S754_nan]);
           ("Unnamed: 5", [Maker.PFloat S754_nan; Maker.PFloat S754_nan]);
           ("Unnamed: 6", [Maker.PFloat S754_nan; Maker.PFloat S754_nan]);
           ("Unnamed: 7", [Maker.PFloat S754_nan; Maker.PFloat S754_nan]);
           ("Unnamed: 8", [Maker.PInt 140; Maker.PInt 70]);
           ("A", [Maker.PStr (lit "x"); Maker.PFloat S754_nan]);
           ("B", [Maker.PFloat S754_nan; Maker.PStr (lit "x")]) ]%string |}.

Definition readers : Readers :=
  {| read_csv := fun _ => None;
     read_excel := fun path =>
       if eqb path (lit "Wykaz.XLSX") then Some sheet else None |}.

End ToyFiles.

(* ================================================================== *)
(** * Strings, labels and lookups *)
(* ================================================================== *)

Lemma eqb_eq (a b : pystr) : eqb a b = true <-> a = b.
Proof.
  revert b; induction a as [|x a IH]; intros [|y b]; simpl;
    try (split; [discriminate | discriminate]); try tauto.
  rewrite andb_true_iff, N.eqb_eq, IH.
  split; [intros [-> ->]; reflexivity | intros E; inversion E; auto].
Qed.

Lemma eqb_refl (a : pystr) : eqb a a = true.
Proof. apply eqb_eq; reflexivity. Qed.

Lemma eqb_neq (a b : pystr) : eqb a b = false <-> a <> b.
Proof.
  rewrite <- eqb_eq. destruct (eqb a b); split; congruence.
Qed.

Lemma mem_In (n : pystr) (l : list pystr) : mem n l = true <-> In n l.
Proof.
  unfold mem. rewrite existsb_exists. split.
  - intros (x & Hx & E). apply eqb_eq in E. subst; assumption.
  - intros Hn. exists n. split; [assumption | apply eqb_refl].
Qed.

Lemma mem_false (n : pystr) (l : list pystr) : mem n l = false <-> ~ In n l.
Proof.
  rewrite <- mem_In. destruct (mem n l); split; congruence.
Qed.

Lemma unique_labels_NoDup (l : list pystr) :
  unique_labels l = true <-> NoDup l.
Proof.
  induction l as [|n l IH]; simpl.
  - split; [constructor | reflexivity].
  - rewrite andb_true_iff, negb_true_iff, mem_false, IH, NoDup_cons_iff.
    reflexivity.
Qed.

Lemma unique_rows_NoDup (l : list nat) : unique_rows l = true <-> NoDup l.
Proof.
  induction l as [|n l IH]; simpl.
  - split; [constructor | reflexivity].
  - rewrite andb_true_iff, negb_true_iff, IH, NoDup_cons_iff.
    assert (E : existsb (Nat.eqb n) l = false <-> ~ In n l).
    { destruct (existsb (Nat.eqb n) l) eqn:X.
      - apply existsb_exists in X. destruct X as (x & Hx & Ex).
        apply Nat.eqb_eq in Ex. subst. split; [discriminate | tauto].
      - split; [| reflexivity]. intros _ Hn.
        assert (existsb (Nat.eqb n) l = true).
        { apply existsb_exists. exists n. split; [assumption|].
          apply Nat.eqb_refl. }
        congruence. }
    rewrite E. reflexivity.
Qed.

Section Lookup.

Variable S : Type.
Implicit Types (cs : list (pystr * S)) (n : pystr).

Lemma lookup_all_absent cs n :
  ~ In n (map fst cs) -> lookup_all n cs = [].
Proof.
  induction cs as [|[m s] cs IH]; simpl; intros Hn; [reflexivity|].
  destruct (eqb m n) eqn:E.
  - apply eqb_eq in E. tauto.
  - apply IH. tauto.
Qed.

Lemma lookup_all_labels cs n c : In c (lookup_all n cs) -> fst c = n /\ In c cs.
Proof.
  unfold lookup_all. rewrite filter_In. intros [Hc E].
  apply eqb_eq in E. tauto.
Qed.

Lemma lookup_all_unique cs n s :
  NoDup (map fst cs) -> In (n, s) cs -> lookup_all n cs = [(n, s)].
Proof.
  induction cs as [|[m t] cs IH]; simpl; intros ND Hin; [contradiction|].
  inversion ND as [|? ? Hm ND']; subst.
  destruct Hin as [E | Hin].
  - inversion E; subst. rewrite eqb_refl.
    rewrite lookup_all_absent by assumption. reflexivity.
  - destruct (eqb m n) eqn:E.
    + apply eqb_eq in E. subst. exfalso. apply Hm.
      apply in_map_iff. exists (n, s). split; auto.
    + apply IH; assumption.
Qed.

Lemma lookup_all_present cs n :
  In n (map fst cs) -> exists c rest, lookup_all n cs = c :: rest /\ fst c = n.
Proof.
  induction cs as [|[m t] cs IH]; simpl; intros Hin; [contradiction|].
  destruct (eqb m n) eqn:E.
  - apply eqb_eq in E. subst. eauto.
  - destruct Hin as [Hm | Hin]; [subst; rewrite eqb_refl in E; discriminate|].
    apply IH; assumption.
Qed.

Lemma lookup_all_nil cs n :
  is_nil (lookup_all n cs) = true <-> ~ In n (map fst cs).
Proof.
  split.
  - intros Hnil Hin. apply lookup_all_present in Hin.
    destruct Hin as (c & rest & E & _). rewrite E in Hnil. discriminate.
  - intros Hn. rewrite lookup_all_absent by assumption. reflexivity.
Qed.

Lemma lookup_all_one cs n :
  NoDup (map fst cs) -> In n (map fst cs) ->
  exists s, In (n, s) cs /\ lookup_all n cs = [(n, s)].
Proof.
  intros ND Hin. apply in_map_iff in Hin.
  destruct Hin as ([m s] & E & Hin). simpl in E. subst m.
  exists s. split; [assumption | apply lookup_all_unique; assumption].
Qed.

End Lookup.

(** ** Boolean row selection *)

Section Select.

Variable A : Type.
Implicit Types (l : list A) (mask : list bool).

Lemma select_nil_mask l : select [] l = [].
Proof. destruct l; reflexivity. Qed.

Lemma select_cons b mask a l :
  select (b :: mask) (a :: l) = if b then a :: select mask l else select mask l.
Proof. unfold select; simpl. destruct b; reflexivity. Qed.

Lemma select_In mask l x :
  In x (select mask l) <->
  exists i, nth_error l i = Some x /\ nth i mask false = true.
Proof.
  revert mask; induction l as [|a l IH]; intros mask.
  - simpl. split; [contradiction|]. intros (i & E & _).
    destruct i; discriminate.
  - destruct mask as [|b mask].
    + rewrite select_nil_mask. split; [contradiction|].
      intros (i & _ & E). destruct i; discriminate.
    + rewrite select_cons. destruct b; simpl.
      * rewrite IH. split.
        -- intros [-> | (i & E & M)]; [exists 0; auto | exists (S i); auto].
        -- intros ([|i] & E & M); simpl in *.
           ++ left; congruence.
           ++ right; eauto.
      * rewrite IH. split.
        -- intros (i & E & M). exists (S i); auto.
        -- intros ([|i] & E & M); simpl in *; [discriminate | eauto].
Qed.

Lemma select_NoDup mask l : NoDup l -> NoDup (select mask l).
Proof.
  revert mask; induction l as [|a l IH]; intros mask ND.
  - constructor.
  - destruct mask as [|b mask]; [rewrite select_nil_mask; constructor|].
    inversion ND as [|? ? Ha ND']; subst.
    rewrite select_cons. destruct b; [|auto].
    constructor; [|auto].
    intros Hin. apply select_In in Hin. destruct Hin as (i & E & _).
    apply nth_error_In in E. contradiction.
Qed.

End Select.

(** Two lists cut by the same mask stay in step. *)
Lemma select_length_eq (A B : Type) (mask : list bool) (l : list A) (l' : list B) :
  length l = length l' -> length (select mask l) = length (select mask l').
Proof.
  revert mask l'; induction l as [|a l IH]; intros mask [|b l'] E;
    try discriminate; [reflexivity|].
  destruct mask as [|m mask]; [rewrite !select_nil_mask; reflexivity|].
  rewrite !select_cons. simpl in E. injection E as E.
  destruct m; simpl; auto.
Qed.

(* ================================================================== *)
(** * The category selector (lines 107-113) *)
(* ================================================================== *)

Import Maker.

Lemma is_nil_true (A : Type) (l : list A) : is_nil l = true <-> l = [].
Proof. destruct l; simpl; split; congruence. Qed.

Lemma filter_nil_iff (A : Type) (f : A -> bool) (l : list A) :
  filter f l = [] <-> forall a, In a l -> f a = false.
Proof.
  induction l as [|a l IH]; simpl.
  - split; [contradiction | reflexivity].
  - destruct (f a) eqn:E.
    + split; [discriminate|]. intros H. specialize (H a (or_introl eq_refl)).
      congruence.
    + rewrite IH. split.
      * intros H b [<- | Hb]; auto.
      * intros H b Hb. apply H. auto.
Qed.

Lemma py_getitem_in_range (A : Type) (l : list A) (j : Z) :
  (0 <= j < Z.of_nat (length l))%Z ->
  exists a, py_getitem l j = inr a /\ nth_error l (Z.to_nat j) = Some a.
Proof.
  intros Hj. unfold py_getitem.
  destruct (j <? 0)%Z eqn:Neg; [apply Z.ltb_lt in Neg; lia|].
  rewrite Neg. simpl.
  destruct (Z.of_nat (length l) <=? j)%Z eqn:Hi; [apply Z.leb_le in Hi; lia|].
  destruct (nth_error l (Z.to_nat j)) as [a|] eqn:E.
  - exists a. split; reflexivity.
  - apply nth_error_None in E. lia.
Qed.

Lemma mapM_total (A B : Type) (f : A -> result B) (l : list A) :
  (forall a, In a l -> exists b, f a = inr b) ->
  exists bs, mapM f l = inr bs /\ length bs = length l /\
    forall k a, nth_error l k = Some a ->
      exists b, nth_error bs k = Some b /\ f a = inr b.
Proof.
  induction l as [|a l IH]; intros Hall.
  - exists []. repeat split; auto. intros [|k] a E; discriminate.
  - destruct (Hall a (or_introl eq_refl)) as (b & Eb).
    destruct IH as (bs & Ebs & Len & Nth); [intros; apply Hall; right; assumption|].
    exists (b :: bs). simpl. rewrite Eb. simpl. rewrite Ebs. simpl.
    repeat split; [congruence|].
    intros [|k] a' E; simpl in *.
    + inversion E; subst. eauto.
    + apply Nth; assumption.
Qed.

Lemma invalid_indexes_In (chosen_indexes : list Z) (max_index idx : Z) :
  In idx (invalid_indexes chosen_indexes max_index) <->
  In idx chosen_indexes /\ (idx < 1 \/ max_index < idx)%Z.
Proof.
  unfold invalid_indexes. rewrite filter_In, orb_true_iff.
  rewrite Z.ltb_lt, Z.gtb_ltb, Z.ltb_lt. reflexivity.
Qed.

(** The selector on the worked example of the specification: five
    categorical columns, indexes 2, 7, 0, 4. *)
Example invalid_indexes_example :
  invalid_indexes [2; 7; 0; 4]%Z 5 = [7; 0]%Z.
Proof. reflexivity. Qed.

Lemma choose_columns_invalid (cat_columns : list pystr) (chosen_indexes : list Z) :
  (exists idx, In idx chosen_indexes /\
               (idx < 1 \/ Z.of_nat (length cat_columns) < idx)%Z) ->
  choose_columns cat_columns chosen_indexes =
    inl (invalid_indexes chosen_indexes (Z.of_nat (length cat_columns))).
Proof.
  intros (idx & Hin & Hout). unfold choose_columns.
  destruct (invalid_indexes chosen_indexes (Z.of_nat (length cat_columns)))
    as [|i inv] eqn:E; [|reflexivity].
  assert (H : In idx (@nil Z)).
  { rewrite <- E. apply invalid_indexes_In. auto. }
  destruct H.
Qed.

Lemma choose_columns_valid (cat_columns : list pystr) (chosen_indexes : list Z) :
  (forall idx, In idx chosen_indexes ->
               (1 <= idx <= Z.of_nat (length cat_columns))%Z) ->
  exists names,
    choose_columns cat_columns chosen_indexes = inr (inr names) /\
    length names = length chosen_indexes /\
    forall k idx, nth_error chosen_indexes k = Some idx ->
      exists name, nth_error names k = Some name /\
                   nth_error cat_columns (Z.to_nat (idx - 1)) = Some name.
Proof.
  intros Hall. unfold choose_columns.
  assert (E : invalid_indexes chosen_indexes (Z.of_nat (length cat_columns)) = []).
  { apply filter_nil_iff. intros idx Hin. specialize (Hall idx Hin).
    apply orb_false_iff. rewrite Z.ltb_ge, Z.gtb_ltb, Z.ltb_ge. lia. }
  rewrite E. simpl.
  destruct (mapM_total (fun idx => py_getitem cat_columns (idx - 1)%Z)
              chosen_indexes) as (names & En & Len & Nth).
  { intros idx Hin. specialize (Hall idx Hin).
    destruct (@py_getitem_in_range _ cat_columns (idx - 1)%Z) as (a & Ea & _);
      [lia | eauto]. }
  exists names. rewrite En. repeat split; [assumption|].
  intros k idx Hk. destruct (Nth k idx Hk) as (name & Hn & Hg).
  exists name. split; [assumption|].
  assert (Hin : In idx chosen_indexes) by (eapply nth_error_In; eassumption).
  specialize (Hall idx Hin).
  destruct (@py_getitem_in_range _ cat_columns (idx - 1)%Z) as (a & Ea & Ha);
    [lia|]. congruence.
Qed.

(** The chosen names are categorical columns of the frame. *)
Lemma choose_columns_incl (cat_columns : list pystr) (chosen_indexes : list Z)
    (names : list pystr) :
  choose_columns cat_columns chosen_indexes = inr (inr names) ->
  incl names cat_columns.
Proof.
  unfold choose_columns.
  destruct (is_nil _); [|discriminate]. intros E. injection E as E.
  revert names E. induction chosen_indexes as [|idx rest IH]; simpl; intros names E.
  - inversion E. intros x [].
  - unfold bind in E at 1.
    destruct (py_getitem cat_columns (idx - 1)%Z) as [e|a] eqn:G; [discriminate|].
    unfold bind in E at 1.
    destruct (mapM _ rest) as [e|bs] eqn:M; [discriminate|].
    inversion E; subst. intros x [<- | Hx].
    + unfold py_getitem in G.
      destruct (_ || _)%bool; [discriminate|].
      destruct (nth_error cat_columns _) eqn:N; [|discriminate].
      inversion G; subst. eapply nth_error_In; eassumption.
    + eapply IH; [reflexivity | assumption].
Qed.

(** C2.  For every list of categorical columns of length N and every
    sequence of integer indexes: when some index lies outside [1, N] the
    selector stops with exactly the indexes outside [1, N] (all of them,
    in the order supplied), run_conversion ends there and nothing is
    resolved; when every index lies in [1, N] the selector returns one
    name per index, in the order the indexes were supplied, the k-th name
    being the column at position idx-1. *)
Theorem selector_reports_all_invalid_or_resolves
    `{Runtime} (cat_columns : list pystr) (chosen_indexes : list Z) :
  let n := Z.of_nat (length cat_columns) in
  ((exists idx, In idx chosen_indexes /\ (idx < 1 \/ n < idx)%Z) ->
     exists invalid,
       choose_columns cat_columns chosen_indexes = inl invalid /\
       invalid <> [] /\
       (forall idx, In idx invalid <->
                    In idx chosen_indexes /\ (idx < 1 \/ n < idx)%Z) /\
       (forall df, cat_columns_of df = cat_columns ->
                   run_conversion df chosen_indexes = InvalidSelection invalid))
  /\
  ((forall idx, In idx chosen_indexes -> (1 <= idx <= n)%Z) ->
     exists names,
       choose_columns cat_columns chosen_indexes = inr (inr names) /\
       length names = length chosen_indexes /\
       (forall k idx, nth_error chosen_indexes k = Some idx ->
          exists name, nth_error names k = Some name /\
                       nth_error cat_columns (Z.to_nat (idx - 1)) = Some name)).
Proof.
  intros n. split.
  - intros Hbad. pose proof (choose_columns_invalid cat_columns _ Hbad) as E.
    exists (invalid_indexes chosen_indexes n).
    split; [exact E|]. split; [|split].
    + destruct Hbad as (idx & Hin & Hout). intros Hnil.
      assert (X : In idx (invalid_indexes chosen_indexes n))
        by (apply invalid_indexes_In; auto).
      rewrite Hnil in X. destruct X.
    + intros idx. apply invalid_indexes_In.
    + intros df Hdf. unfold run_conversion. rewrite Hdf. fold n in E.
      unfold n in *. rewrite E. reflexivity.
  - apply choose_columns_valid.
Qed.

Lemma selector_reports_all_invalid_or_resolves_witness :
  (exists idx, In idx [2; 7; 0; 4]%Z /\
     (idx < 1 \/
      Z.of_nat (length (cat_columns_of Examples.journals_c)) < idx)%Z) /\
  choose_columns (cat_columns_of Examples.journals_c) [2; 7; 0; 4]%Z
    = inl [7; 0]%Z /\
  run_conversion (H := Toy.runtime) Examples.journals_c [2; 7; 0; 4]%Z
    = InvalidSelection [7; 0]%Z /\
  (forall idx, In idx [3; 1]%Z ->
     (1 <= idx <= Z.of_nat (length (cat_columns_of Examples.journals_c)))%Z) /\
  choose_columns (cat_columns_of Examples.journals_c) [3; 1]%Z
    = inr (inr [lit "c3"; lit "c1"]).
Proof.
  assert (Hbad : exists idx, In idx [2; 7; 0; 4]%Z /\
            (idx < 1 \/
             Z.of_nat (length (cat_columns_of Examples.journals_c)) < idx)%Z).
  { exists 7%Z. split; [simpl; tauto | right; vm_compute; reflexivity]. }
  assert (Hok : forall idx, In idx [3; 1]%Z ->
            (1 <= idx <= Z.of_nat (length (cat_columns_of Examples.journals_c)))%Z).
  { intros idx [<- | [<- | []]]; vm_compute; split; discriminate. }
  destruct (@selector_reports_all_invalid_or_resolves Toy.runtime
              (cat_columns_of Examples.journals_c) [2; 7; 0; 4]%Z) as [Hinv _].
  destruct (Hinv Hbad) as (invalid & E & _ & _ & Hrun).
  destruct (@selector_reports_all_invalid_or_resolves Toy.runtime
              (cat_columns_of Examples.journals_c) [3; 1]%Z) as [_ Hres].
  destruct (Hres Hok) as (names & En & _).
  split; [exact Hbad|].
  assert (Ei : invalid = [7; 0]%Z) by (vm_compute in E; congruence).
  subst invalid.
  split; [exact E|]. split; [apply Hrun; reflexivity|].
  split; [exact Hok|].
  rewrite En. vm_compute in En. injection En as <-. reflexivity.
Defined.

(* ================================================================== *)
(** * Frames under column and row selection *)
(* ================================================================== *)

Lemma lookup_all_map (S T : Type) (g : S -> T) (n : pystr) (cs : list (pystr * S)) :
  lookup_all n (map (fun c => (fst c, g (snd c))) cs) =
  map (fun c => (fst c, g (snd c))) (lookup_all n cs).
Proof.
  induction cs as [|[m s] cs IH]; simpl; [reflexivity|].
  destruct (eqb m n); simpl; congruence.
Qed.

Lemma lookup_all_idem (S : Type) (n m : pystr) (cs : list (pystr * S)) :
  lookup_all m (lookup_all n cs) = if eqb n m then lookup_all m cs else [].
Proof.
  induction cs as [|[k s] cs IH]; simpl.
  - destruct (eqb n m); reflexivity.
  - destruct (eqb k n) eqn:Ekn; simpl.
    + apply eqb_eq in Ekn. subst k.
      destruct (eqb n m) eqn:Enm; simpl; rewrite ?Enm in *;
        rewrite IH; reflexivity.
    + destruct (eqb n m) eqn:Enm.
      * apply eqb_eq in Enm. subst m. rewrite Ekn. exact IH.
      * exact IH.
Qed.

Lemma lookup_all_flat_map_other (S : Type) (m : pystr) (cs : list (pystr * S))
    (names : list pystr) :
  ~ In m names ->
  lookup_all m (flat_map (fun n => lookup_all n cs) names) = [].
Proof.
  induction names as [|n names IH]; simpl; intros Hm; [reflexivity|].
  unfold lookup_all at 1. rewrite filter_app. fold (lookup_all m (lookup_all n cs)).
  fold (lookup_all m (flat_map (fun n0 => lookup_all n0 cs) names)).
  rewrite lookup_all_idem, IH by tauto.
  destruct (eqb n m) eqn:E; [apply eqb_eq in E; tauto | reflexivity].
Qed.

(** A label that occurs once among the requested names brings exactly the
    columns it has in the frame. *)
Lemma lookup_all_flat_map_once (S : Type) (m : pystr) (cs : list (pystr * S))
    (before after : list pystr) :
  ~ In m before -> ~ In m after ->
  lookup_all m (flat_map (fun n => lookup_all n cs) (before ++ m :: after)) =
  lookup_all m cs.
Proof.
  intros Hb Ha. rewrite flat_map_app. simpl.
  unfold lookup_all at 1. rewrite !filter_app.
  fold (lookup_all m (flat_map (fun n => lookup_all n cs) before)).
  fold (lookup_all m (lookup_all m cs)).
  fold (lookup_all m (flat_map (fun n => lookup_all n cs) after)).
  rewrite !lookup_all_flat_map_other by assumption.
  rewrite lookup_all_idem, eqb_refl, app_nil_r. reflexivity.
Qed.

Lemma once_in_NoDup (names : list pystr) (m : pystr) :
  NoDup names -> In m names ->
  exists before after, names = before ++ m :: after /\
                       ~ In m before /\ ~ In m after.
Proof.
  intros ND Hin. destruct (in_split _ _ Hin) as (before & after & E).
  exists before, after. subst names. split; [reflexivity|].
  apply NoDup_remove_2 in ND. rewrite in_app_iff in ND. tauto.
Qed.

Section FrameOps.

Implicit Types (df sub : DataFrame) (names : list pystr) (mask : list bool).

Lemma getitem_list_inv df names sub :
  getitem_list df names = inr sub ->
  index sub = index df /\
  cols sub = flat_map (fun n => lookup_all n (cols df)) names /\
  incl names (columns df).
Proof.
  unfold getitem_list.
  destruct (is_nil _) eqn:E; [|discriminate].
  intros X. inversion X; subst; clear X. simpl. repeat split.
  apply is_nil_true in E. intros n Hn.
  destruct (in_dec (list_eq_dec N.eq_dec) n (columns df)) as [Y|Y]; [assumption|].
  exfalso. pose proof (proj1 (filter_nil_iff _ _) E n Hn) as Z.
  simpl in Z. apply (lookup_all_nil (cols df) n) in Y. congruence.
Qed.

Lemma getitem_list_total df names :
  incl names (columns df) -> exists sub, getitem_list df names = inr sub.
Proof.
  intros Hincl. unfold getitem_list.
  assert (E : filter (fun n => is_nil (lookup_all n (cols df))) names = []).
  { apply filter_nil_iff. intros n Hn.
    destruct (is_nil (lookup_all n (cols df))) eqn:X; [|reflexivity].
    apply lookup_all_nil in X. exfalso. apply X, Hincl, Hn. }
  rewrite E. simpl. eauto.
Qed.

(** With distinct labels in the frame, [df[names]] has the labels
    [names], repeated names included. *)
Lemma getitem_list_columns df names sub :
  NoDup (columns df) ->
  getitem_list df names = inr sub ->
  columns sub = names.
Proof.
  intros ND E. apply getitem_list_inv in E. destruct E as (_ & Ec & Hincl).
  unfold columns. rewrite Ec. clear Ec.
  induction names as [|n names IH]; simpl; [reflexivity|].
  rewrite map_app.
  destruct (@lookup_all_one _ (cols df) n ND) as (s & _ & Es);
    [apply Hincl; left; reflexivity|].
  rewrite Es. simpl. f_equal. apply IH.
  intros x Hx. apply Hincl. right. assumption.
Qed.

Lemma column_getitem_list df names sub m before after :
  getitem_list df names = inr sub ->
  names = before ++ m :: after -> ~ In m before -> ~ In m after ->
  column sub m = column df m.
Proof.
  intros E -> Hb Ha. apply getitem_list_inv in E. destruct E as (_ & Ec & _).
  unfold column. rewrite Ec, lookup_all_flat_map_once by assumption.
  reflexivity.
Qed.

Lemma columns_getitem_mask df mask : columns (getitem_mask df mask) = columns df.
Proof.
  unfold columns, getitem_mask. simpl. rewrite map_map. reflexivity.
Qed.

Lemma column_getitem_mask df mask m :
  column (getitem_mask df mask) m = option_map (select mask) (column df m).
Proof.
  unfold column, getitem_mask. simpl. rewrite lookup_all_map.
  destruct (lookup_all m (cols df)) as [|c [|c' rest]]; reflexivity.
Qed.

Lemma column_In df m col : column df m = Some col -> In (m, col) (cols df).
Proof.
  unfold column. destruct (lookup_all m (cols df)) as [|c [|c' rest]] eqn:E;
    try discriminate.
  intros X. inversion X; subst.
  destruct (@lookup_all_labels _ (cols df) m c) as [F Hin];
    [rewrite E; left; reflexivity|].
  destruct c; simpl in *; subst; assumption.
Qed.

Lemma column_unique df m :
  NoDup (columns df) -> In m (columns df) -> exists col, column df m = Some col.
Proof.
  intros ND Hin. destruct (@lookup_all_one _ (cols df) m ND Hin) as (s & _ & E).
  exists s. unfold column. rewrite E. reflexivity.
Qed.

Lemma aligned_column df m col :
  aligned df = true -> column df m = Some col -> length col = nrows df.
Proof.
  intros Al E. apply column_In in E. unfold aligned in Al.
  rewrite forallb_forall in Al. specialize (Al _ E). simpl in Al.
  apply Nat.eqb_eq in Al. assumption.
Qed.

End FrameOps.

(* ================================================================== *)
(** * The filter (lines 116-123) *)
(* ================================================================== *)

Lemma nth_true_iff (l : list bool) (i : nat) :
  nth i l false = true <-> nth_error l i = Some true.
Proof.
  revert i; induction l as [|b l IH]; intros [|i]; simpl;
    try (split; discriminate).
  - split; congruence.
  - apply IH.
Qed.

Lemma any_axis1_length (n : nat) (bcols : list (list bool)) :
  length (any_axis1 n bcols) = n.
Proof. unfold any_axis1. rewrite length_map, length_seq. reflexivity. Qed.

Lemma any_axis1_nth (n : nat) (bcols : list (list bool)) (i : nat) :
  nth i (any_axis1 n bcols) false = true <->
  i < n /\ exists col, In col bcols /\ nth i col false = true.
Proof.
  unfold any_axis1. rewrite nth_true_iff, nth_error_map.
  destruct (Nat.lt_ge_cases i n) as [Hlt | Hge].
  - rewrite nth_error_seq. destruct (Nat.ltb_spec i n) as [_|X]; [|lia].
    simpl. split.
    + intros E. injection E as E. apply existsb_exists in E. tauto.
    + intros [_ E]. f_equal. apply existsb_exists. assumption.
  - assert (E : nth_error (seq 0 n) i = None)
      by (apply nth_error_None; rewrite length_seq; assumption).
    rewrite E. simpl. split; [discriminate | lia].
Qed.

Section Filter.

Context `{Runtime}.
Implicit Types (df : DataFrame) (chosen : list pystr).

Lemma marked_nth (col : list pystr) (i : nat) :
  nth i (map marked col) false = true <->
  exists v, nth_error col i = Some v /\ marked v = true.
Proof.
  rewrite nth_true_iff, nth_error_map.
  destruct (nth_error col i) as [v|]; simpl.
  - split; [intros E; injection E as E; eauto|].
    intros (v' & E & M). congruence.
  - split; [discriminate | intros (v & E & _); discriminate].
Qed.

Lemma row_mask_spec df chosen :
  NoDup (columns df) -> incl chosen (columns df) ->
  exists mask,
    row_mask df chosen = inr mask /\
    length mask = nrows df /\
    forall i, i < nrows df ->
      (nth i mask false = true <-> exists c, In c chosen /\ marked_at df c i).
Proof.
  intros ND Hincl. unfold row_mask.
  destruct (getitem_list_total df Hincl) as (sub & Esub).
  rewrite Esub. simpl.
  eexists. split; [reflexivity|]. split; [apply any_axis1_length|].
  intros i Hi. rewrite any_axis1_nth.
  apply getitem_list_inv in Esub. destruct Esub as (_ & Ec & _).
  split.
  - intros (_ & col & Hcol & Hnth).
    apply in_map_iff in Hcol. destruct Hcol as ([n s] & <- & Hc).
    rewrite Ec in Hc. apply in_flat_map in Hc. destruct Hc as (c & Hc & Hl).
    apply lookup_all_labels in Hl. simpl in Hl. destruct Hl as [-> Hin].
    exists c. split; [assumption|].
    apply marked_nth in Hnth. destruct Hnth as (v & Ev & Mv).
    exists v. split; [|assumption]. unfold cell, column.
    rewrite (lookup_all_unique _ _ _ ND Hin). assumption.
  - intros (c & Hc & v & Ev & Mv). split; [assumption|].
    unfold cell in Ev. destruct (column df c) as [col|] eqn:Ecol; [|discriminate].
    exists (map marked col). split.
    + apply in_map_iff. exists (c, col). split; [reflexivity|].
      rewrite Ec. apply in_flat_map. exists c. split; [assumption|].
      apply column_In in Ecol.
      rewrite (lookup_all_unique _ _ _ ND Ecol). left; reflexivity.
    + apply marked_nth. eauto.
Qed.

Lemma filter_and_project_inv df chosen df_final :
  filter_and_project df chosen = inr df_final ->
  exists mask,
    row_mask df chosen = inr mask /\
    getitem_list (getitem_mask df mask) (METADATA_COLUMNS ++ chosen)
      = inr df_final.
Proof.
  unfold filter_and_project.
  destruct (row_mask df chosen) as [e|mask]; simpl; [discriminate|].
  intros E. exists mask. auto.
Qed.

Lemma run_conversion_saved df chosen_indexes df_final wb failure :
  run_conversion df chosen_indexes = Saved df_final wb failure ->
  exists chosen,
    choose_columns (cat_columns_of df) chosen_indexes = inr (inr chosen) /\
    filter_and_project df chosen = inr df_final /\
    write_workbook df_final chosen = (wb, failure).
Proof.
  unfold run_conversion.
  destruct (choose_columns _ _) as [inv | [e | chosen]] eqn:C;
    try discriminate.
  destruct (filter_and_project df chosen) as [e | d] eqn:F; try discriminate.
  destruct (write_workbook d chosen) as [w f] eqn:W.
  intros E. inversion E; subst. exists chosen. auto.
Qed.

(** A run that reaches the snapshot found every metadata column. *)
Lemma saved_has_metadata df chosen_indexes df_final wb failure :
run_conversion df chosen_indexes = Saved df_final wb failure ->
has_metadata df = true.
Proof.
intros E. apply run_conversion_saved in E. destruct E as (chosen & _ & Ef & _).
apply filter_and_project_inv in Ef. destruct Ef as (mask & _ & Eg).
apply getitem_list_inv in Eg. destruct Eg as (_ & _ & Hincl).
unfold has_metadata. apply forallb_forall. intros m Hm. apply mem_In.
assert (X : In m (columns (getitem_mask df mask)))
  by (apply Hincl, in_app_iff; left; assumption).
unfold columns, getitem_mask in X. simpl in X. rewrite map_map in X.
exact X.
Qed.

Lemma cat_columns_of_In df c :
  In c (cat_columns_of df) <-> In c (columns df) /\ ~ In c METADATA_COLUMNS.
Proof.
  unfold cat_columns_of. rewrite filter_In, negb_true_iff, mem_false.
  reflexivity.
Qed.

Lemma is_frame_inv df :
  is_frame df = true ->
  NoDup (columns df) /\ NoDup (index df) /\ aligned df = true.
Proof.
  unfold is_frame. rewrite !andb_true_iff.
  rewrite unique_labels_NoDup, unique_rows_NoDup. tauto.
Qed.

Lemma NoDup_nth_error_inj (A : Type) (l : list A) (i j : nat) (x : A) :
  NoDup l -> nth_error l i = Some x -> nth_error l j = Some x -> i = j.
Proof.
  intros ND Ei Ej. rewrite NoDup_nth_error in ND. apply ND.
  - apply nth_error_Some. congruence.
  - congruence.
Qed.

End Filter.


(* ================================================================== *)
(** * The projection and the values it carries *)
(* ================================================================== *)

Lemma METADATA_COLUMNS_NoDup : NoDup METADATA_COLUMNS.
Proof. apply unique_labels_NoDup. reflexivity. Qed.

Lemma has_metadata_incl (df : DataFrame) :
  has_metadata df = true <-> incl METADATA_COLUMNS (columns df).
Proof.
  unfold has_metadata. rewrite forallb_forall. unfold incl.
  split; intros Hm m Hin; apply mem_In; apply Hm; assumption.
Qed.

Lemma present_metadata_full (df : DataFrame) :
  present_metadata df = METADATA_COLUMNS <-> has_metadata df = true.
Proof.
  unfold present_metadata, has_metadata. split.
  - intros E. apply forallb_forall. intros m Hm.
    rewrite <- E in Hm. apply filter_In in Hm. tauto.
  - intros Hall. rewrite forallb_forall in Hall.
    induction METADATA_COLUMNS as [|m l IH]; simpl; [reflexivity|].
    rewrite (Hall m (or_introl eq_refl)). f_equal. apply IH.
    intros x Hx. apply Hall. right. assumption.
Qed.

Lemma position_select (A : Type) (mask : list bool) (labels : list nat)
    (col : list A) (l : nat) :
  NoDup labels -> length col = length labels ->
  In l (select mask labels) ->
  exists i k,
    position l labels = Some i /\
    position l (select mask labels) = Some k /\
    nth_error (select mask col) k = nth_error col i /\
    i < length labels.
Proof.
  revert mask col. induction labels as [|a labels IH]; intros mask col ND Len Hin.
  - destruct mask; simpl in Hin; contradiction.
  - destruct col as [|v col]; [discriminate|]. simpl in Len. injection Len as Len.
    inversion ND as [|? ? Ha ND']; subst.
    destruct mask as [|b mask]; [rewrite select_nil_mask in Hin; destruct Hin|].
    rewrite !select_cons in *. simpl position at 1.
    destruct (Nat.eqb_spec l a) as [-> | Hne].
    + destruct b.
      * exists 0, 0. simpl. rewrite Nat.eqb_refl. repeat split; auto. lia.
      * exfalso. apply select_In in Hin. destruct Hin as (i & E & _).
        apply nth_error_In in E. contradiction.
    + assert (Hin' : In l (select mask labels)).
      { destruct b; [destruct Hin as [E | Hin]; [congruence | assumption]
                    | assumption]. }
      destruct (IH mask col ND' Len Hin') as (i & k & Pi & Pk & Nk & Hi).
      rewrite Pi. destruct b.
      * exists (S i), (S k). simpl.
        destruct (Nat.eqb_spec l a); [contradiction|].
        rewrite Pk. simpl. repeat split; auto. lia.
      * exists (S i), k. simpl. repeat split; auto. lia.
Qed.

(** A column cut by the mask that cut the index shows, for every row that
    is left, the value the row had. *)
Lemma value_at_restrict (df out : DataFrame) (mask : list bool) (m : pystr)
    (col : list pystr) :
  NoDup (index df) ->
  column df m = Some col -> length col = nrows df ->
  index out = select mask (index df) ->
  column out m = Some (select mask col) ->
  forall l, In l (index out) ->
    exists v, value_at df l m = Some v /\ value_at out l m = Some v.
Proof.
  intros ND Ecol Len Eidx Eout l Hin. rewrite Eidx in Hin.
  destruct (@position_select _ mask (index df) col l ND Len Hin) as (i & k & Pi & Pk & Nk & Hi).
  unfold value_at, cell. rewrite Eidx, Pi, Pk, Ecol, Eout, Nk.
  destruct (nth_error col i) as [v|] eqn:E.
  - exists v. split; reflexivity.
  - apply nth_error_None in E. unfold nrows in Len. lia.
Qed.

Section Projection.

Context `{Runtime}.
Implicit Types (df df_final : DataFrame) (chosen : list pystr).

Lemma aligned_getitem_mask df mask :
  aligned df = true -> aligned (getitem_mask df mask) = true.
Proof.
  unfold aligned. rewrite !forallb_forall. intros Al c Hc.
  simpl in Hc. apply in_map_iff in Hc. destruct Hc as (c0 & <- & Hc0).
  specialize (Al c0 Hc0). apply Nat.eqb_eq in Al. apply Nat.eqb_eq.
  simpl. unfold nrows. simpl. apply select_length_eq. assumption.
Qed.

Lemma aligned_getitem_list df names sub :
  aligned df = true -> getitem_list df names = inr sub -> aligned sub = true.
Proof.
  intros Al E. apply getitem_list_inv in E. destruct E as (Ei & Ec & _).
  unfold aligned in *. rewrite forallb_forall in *. intros c Hc.
  rewrite Ec in Hc. apply in_flat_map in Hc. destruct Hc as (n & _ & Hc).
  apply lookup_all_labels in Hc. unfold nrows. rewrite Ei.
  apply Al. tauto.
Qed.

Lemma chosen_not_metadata df chosen c :
  incl chosen (cat_columns_of df) -> In c chosen -> ~ In c METADATA_COLUMNS.
Proof.
  intros Hincl Hc. apply Hincl in Hc. apply cat_columns_of_In in Hc. tauto.
Qed.

(** What lines 117-123 produce on a Dataset. *)
Lemma filter_and_project_spec df chosen :
  is_dataset df = true ->
  incl chosen (cat_columns_of df) ->
  exists mask df_final,
    row_mask df chosen = inr mask /\
    filter_and_project df chosen = inr df_final /\
    index df_final = select mask (index df) /\
    columns df_final = METADATA_COLUMNS ++ chosen /\
    NoDup (index df_final) /\
    aligned df_final = true /\
    (forall m, In m METADATA_COLUMNS ->
       exists col, column df m = Some col /\ length col = nrows df /\
                   column df_final m = Some (select mask col)) /\
    (NoDup chosen ->
     forall c, In c chosen ->
       exists col, column df c = Some col /\ length col = nrows df /\
                   column df_final c = Some (select mask col)).
Proof.
  unfold is_dataset. rewrite andb_true_iff. intros [Hf Hm] Hincl.
  apply is_frame_inv in Hf. destruct Hf as (NDc & NDi & Al).
  apply has_metadata_incl in Hm.
  assert (Hincl' : incl chosen (columns df)).
  { intros c Hc. apply Hincl in Hc. apply cat_columns_of_In in Hc. tauto. }
  destruct (@row_mask_spec _ df chosen NDc Hincl') as (mask & Em & Len & _).
  assert (Hall : incl (METADATA_COLUMNS ++ chosen)
                   (columns (getitem_mask df mask))).
  { rewrite columns_getitem_mask. apply incl_app; assumption. }
  destruct (getitem_list_total _ Hall) as (df_final & Ef).
  assert (NDm : NoDup (columns (getitem_mask df mask)))
    by (rewrite columns_getitem_mask; assumption).
  exists mask, df_final. split; [assumption|].
  split; [unfold filter_and_project; rewrite Em; exact Ef|].
  pose proof (getitem_list_inv _ _ Ef) as (Ei & _ & _).
  split; [exact Ei|].
  split; [apply (getitem_list_columns _ _ NDm Ef)|].
  split; [rewrite Ei; apply select_NoDup; assumption|].
  split; [eapply aligned_getitem_list;
          [apply aligned_getitem_mask; eassumption | eassumption]|].
  split.
  - intros m Hin.
    destruct (column_unique df m NDc (Hm m Hin)) as (col & Ecol).
    exists col. split; [assumption|].
    split; [eapply aligned_column; eassumption|].
    destruct (@once_in_NoDup _ _ METADATA_COLUMNS_NoDup Hin)
      as (before & after & E & Hb & Ha).
    rewrite (@column_getitem_list _ (METADATA_COLUMNS ++ chosen) df_final m
               before (after ++ chosen) Ef).
    + rewrite column_getitem_mask, Ecol. reflexivity.
    + rewrite E, <- app_assoc. reflexivity.
    + assumption.
    + rewrite in_app_iff. intros [X | X]; [tauto|].
      eapply chosen_not_metadata; eassumption.
  - intros NDch c Hin.
    destruct (column_unique df c NDc (Hincl' c Hin)) as (col & Ecol).
    exists col. split; [assumption|].
    split; [eapply aligned_column; eassumption|].
    destruct (@once_in_NoDup _ _ NDch Hin) as (before & after & E & Hb & Ha).
    rewrite (@column_getitem_list _ (METADATA_COLUMNS ++ chosen) df_final c
               (METADATA_COLUMNS ++ before) after Ef).
    + rewrite column_getitem_mask, Ecol. reflexivity.
    + rewrite E, <- app_assoc. reflexivity.
    + rewrite in_app_iff. intros [X | X]; [|tauto].
      eapply chosen_not_metadata; eassumption.
    + assumption.
Qed.

End Projection.

(** Discharges [incl] and [In] goals between concrete lists of labels. *)
Ltac concrete_incl :=
  let c := fresh "c" in
  let Hc := fresh "Hc" in
  intros c Hc; simpl in Hc;
  repeat (destruct Hc as [<- | Hc]; [vm_compute; tauto|]);
  destruct Hc.


(** C3.  For every loaded frame and every valid selection: whenever a
    FilteredDataset is produced, its columns are exactly the metadata
    columns followed by the selected columns, in that order, and a column
    of the frame that is neither metadata nor selected is not a column of
    the FilteredDataset; and one is produced as soon as the frame is a
    Dataset, that is, holds the nine metadata columns. *)
Theorem filtered_columns_are_metadata_then_selected
    `{Runtime} (df : DataFrame) (chosen_indexes : list Z) :
  is_frame df = true ->
  (forall idx, In idx chosen_indexes ->
     (1 <= idx <= Z.of_nat (length (cat_columns_of df)))%Z) ->
  exists chosen,
    choose_columns (cat_columns_of df) chosen_indexes = inr (inr chosen) /\
    (has_metadata df = true ->
     exists df_final wb failure,
       run_conversion df chosen_indexes = Saved df_final wb failure) /\
    (forall df_final wb failure,
       run_conversion df chosen_indexes = Saved df_final wb failure ->
       columns df_final = METADATA_COLUMNS ++ chosen /\
       (forall c, In c (columns df) ->
          ~ In c METADATA_COLUMNS -> ~ In c chosen ->
          ~ In c (columns df_final))).
Proof.
  intros Hf Hvalid.
  destruct (choose_columns_valid (cat_columns_of df) chosen_indexes Hvalid)
    as (chosen & Ec & _).
  pose proof (choose_columns_incl _ _ Ec) as Hincl.
  exists chosen. split; [exact Ec|].
  assert (Run : has_metadata df = true ->
            exists df_final wb failure,
              run_conversion df chosen_indexes = Saved df_final wb failure /\
              columns df_final = METADATA_COLUMNS ++ chosen).
  { intros Hm.
    assert (Hd : is_dataset df = true)
      by (unfold is_dataset; rewrite Hf, Hm; reflexivity).
    destruct (@filter_and_project_spec _ df chosen Hd Hincl)
      as (mask & df_final & _ & Ef & _ & Ecols & _).
    destruct (write_workbook df_final chosen) as [wb failure] eqn:W.
    exists df_final, wb, failure. split; [|exact Ecols].
    unfold run_conversion. rewrite Ec, Ef, W. reflexivity. }
  split.
  - intros Hm. destruct (Run Hm) as (df_final & wb & failure & E & _). eauto.
  - intros df_final wb failure E.
    destruct (Run (saved_has_metadata _ _ E)) as (d & w & f & E' & Ecols).
    rewrite E in E'. injection E' as <- <- <-.
    split; [exact Ecols|].
    intros c _ Hm Hs. rewrite Ecols, in_app_iff. tauto.
Qed.

Lemma filtered_columns_are_metadata_then_selected_witness :
  is_frame Examples.journals_ab = true /\
  (forall idx, In idx [2; 1]%Z ->
     (1 <= idx <= Z.of_nat (length (cat_columns_of Examples.journals_ab)))%Z) /\
  exists df_final wb failure,
    run_conversion (H := Toy.runtime) Examples.journals_ab [2; 1]%Z
      = Saved df_final wb failure /\
    columns df_final = METADATA_COLUMNS ++ [lit "B"; lit "A"].
Proof.
  assert (Hf : is_frame Examples.journals_ab = true) by (vm_compute; reflexivity).
  assert (Hv : forall idx, In idx [2; 1]%Z ->
            (1 <= idx <= Z.of_nat (length (cat_columns_of Examples.journals_ab)))%Z).
  { intros idx [<- | [<- | []]]; vm_compute; split; discriminate. }
  split; [exact Hf|]. split; [exact Hv|].
  destruct (@filtered_columns_are_metadata_then_selected Toy.runtime
              Examples.journals_ab [2; 1]%Z Hf Hv)
    as (chosen & Ec & Hrun & Hcols).
  destruct Hrun as (df_final & wb & failure & Er); [vm_compute; reflexivity|].
  exists df_final, wb, failure. split; [exact Er|].
  vm_compute in Ec. injection Ec as <-. apply (Hcols _ _ _ Er).
Defined.

(** The claim C4 as the specification puts it fails on a table without
    the "Punkty" column: the selection is valid, eight metadata names are
    present, and the run yields no FilteredDataset over the present names
    plus the selection; it ends in a KeyError. *)
Lemma projection_does_not_restrict_metadata :
  is_frame Examples.no_points = true /\
  present_metadata Examples.no_points = removelast METADATA_COLUMNS /\
  choose_columns (cat_columns_of Examples.no_points) [1]%Z
    = inr (inr [lit "A"]) /\
  run_conversion (H := Toy.runtime) Examples.no_points [1]%Z
    = Uncaught (KeyError [lit "Punkty"]) /\
  ~ (exists df_final wb failure,
       run_conversion (H := Toy.runtime) Examples.no_points [1]%Z
         = Saved df_final wb failure /\
       columns df_final = present_metadata Examples.no_points ++ [lit "A"]).
Proof.
  split; [vm_compute; reflexivity|].
  split; [vm_compute; reflexivity|].
  split; [vm_compute; reflexivity|].
  split; [vm_compute; reflexivity|].
  intros (df_final & wb & failure & E & _).
  vm_compute in E. discriminate.
Qed.

(** C4, amended.  The categorical columns are the columns of the frame
    that are not in the fixed list, in the order of the frame.  The
    metadata columns the pipeline projects on are the whole fixed list;
    that list is the fixed set restricted to the names present exactly
    when all nine names are present.  Whenever a FilteredDataset is
    produced all nine names are present and its columns are the fixed
    list followed by the selection; when a fixed name is absent and the
    selection is valid, the projection raises KeyError for the absent
    names and no FilteredDataset is produced. *)
Theorem classifier_uses_full_metadata_list
    `{Runtime} (df : DataFrame) (chosen_indexes : list Z) :
  is_frame df = true ->
  cat_columns_of df
    = filter (fun col => negb (mem col METADATA_COLUMNS)) (columns df) /\
  (forall c, In c (cat_columns_of df) <->
             In c (columns df) /\ ~ In c METADATA_COLUMNS) /\
  (present_metadata df = METADATA_COLUMNS <-> has_metadata df = true) /\
  (forall df_final wb failure,
     run_conversion df chosen_indexes = Saved df_final wb failure ->
     has_metadata df = true /\
     exists chosen,
       choose_columns (cat_columns_of df) chosen_indexes = inr (inr chosen) /\
       columns df_final = METADATA_COLUMNS ++ chosen /\
       columns df_final = present_metadata df ++ chosen) /\
  (has_metadata df = false ->
   (forall idx, In idx chosen_indexes ->
      (1 <= idx <= Z.of_nat (length (cat_columns_of df)))%Z) ->
   exists missing,
     run_conversion df chosen_indexes = Uncaught (KeyError missing) /\
     missing <> [] /\
     (forall m, In m missing ->
        In m METADATA_COLUMNS /\ ~ In m (columns df))).
Proof.
  intros Hf. pose proof (is_frame_inv _ Hf) as (NDc & NDi & Al).
  split; [reflexivity|]. split; [apply cat_columns_of_In|].
  split; [apply present_metadata_full|]. split.
  - intros df_final wb failure E.
    pose proof (saved_has_metadata _ _ E) as Hm.
    apply run_conversion_saved in E. destruct E as (chosen & Ec & Ef & _).
    apply filter_and_project_inv in Ef. destruct Ef as (mask & _ & Eg).
    split; [exact Hm|]. exists chosen. split; [exact Ec|].
    assert (Ecols : columns df_final = METADATA_COLUMNS ++ chosen).
    { apply (getitem_list_columns (getitem_mask df mask)); [|exact Eg].
      rewrite columns_getitem_mask. assumption. }
    split; [exact Ecols|].
    rewrite (proj2 (present_metadata_full df) Hm). exact Ecols.
  - intros Hm Hvalid.
    destruct (choose_columns_valid (cat_columns_of df) chosen_indexes Hvalid)
      as (chosen & Ec & _).
    pose proof (choose_columns_incl _ _ Ec) as Hincl.
    assert (Hincl' : incl chosen (columns df)).
    { intros c Hc. apply Hincl in Hc. apply cat_columns_of_In in Hc. tauto. }
    destruct (@row_mask_spec _ df chosen NDc Hincl') as (mask & Em & _).
    set (missing := filter (fun n => is_nil (lookup_all n
                      (cols (getitem_mask df mask)))) (METADATA_COLUMNS ++ chosen)).
    assert (Hmiss : forall m, In m missing ->
              In m METADATA_COLUMNS /\ ~ In m (columns df)).
    { intros m Hin. apply filter_In in Hin. destruct Hin as [Hin Hnil].
      apply lookup_all_nil in Hnil.
      change (map fst (cols (getitem_mask df mask)))
        with (columns (getitem_mask df mask)) in Hnil.
      rewrite columns_getitem_mask in Hnil.
      split; [|exact Hnil].
      apply in_app_iff in Hin. destruct Hin as [Hin | Hin]; [assumption|].
      exfalso. apply Hnil, Hincl', Hin. }
    assert (Hne : missing <> []).
    { intros Hnil.
      assert (X : has_metadata df = true); [|congruence].
      apply has_metadata_incl. intros m Hin.
      destruct (in_dec (list_eq_dec N.eq_dec) m (columns df)) as [Y|Y];
        [assumption|].
      exfalso.
      assert (Z : In m missing).
      { apply filter_In. split; [apply in_app_iff; left; assumption|].
        apply lookup_all_nil.
        change (map fst (cols (getitem_mask df mask)))
          with (columns (getitem_mask df mask)).
        rewrite columns_getitem_mask. assumption. }
      rewrite Hnil in Z. destruct Z. }
    exists missing. split; [|split; assumption].
    unfold run_conversion. rewrite Ec.
    unfold filter_and_project. rewrite Em. unfold bind.
    unfold getitem_list. fold missing.
    destruct missing; [congruence | reflexivity].
Qed.

Lemma classifier_uses_full_metadata_list_witness :
  is_frame Examples.no_points = true /\
  has_metadata Examples.no_points = false /\
  exists missing,
    run_conversion (H := Toy.runtime) Examples.no_points [1]%Z
      = Uncaught (KeyError missing) /\
    missing <> [].
Proof.
  assert (Hf : is_frame Examples.no_points = true) by (vm_compute; reflexivity).
  assert (Hm : has_metadata Examples.no_points = false) by (vm_compute; reflexivity).
  split; [exact Hf|]. split; [exact Hm|].
  destruct (@classifier_uses_full_metadata_list Toy.runtime
              Examples.no_points [1]%Z Hf) as (_ & _ & _ & _ & Hbad).
  destruct (Hbad Hm) as (missing & E & Hne & _).
  - intros idx [<- | []]. vm_compute. split; discriminate.
  - exists missing. split; assumption.
Defined.

(* ================================================================== *)
(** * The workbook (lines 141-177) *)
(* ================================================================== *)


Section Workbook.

Context `{Runtime}.
Implicit Types (df : DataFrame) (cat c : pystr) (sh : Sheet) (wb : Workbook).

Lemma category_sheet_unfold df cat texts :
  column df cat = Some texts ->
  category_sheet df cat =
    let df_cat := getitem_mask df (map marked texts) in
    if empty df_cat then ret None
    else
      df_cat_filtered <- getitem_list df_cat (METADATA_COLUMNS ++ [cat]) ;;
      ret (Some {| sheet_name := slice_to 31 cat;
                   sheet_data := df_cat_filtered |}).
Proof.
  unfold column, category_sheet, getitem_col.
  destruct (lookup_all cat (cols df)) as [|c [|c' rest]]; try discriminate.
  intros E. injection E as <-. reflexivity.
Qed.

Lemma category_sheet_error df cat :
  column df cat = None -> exists e, category_sheet df cat = inl e.
Proof.
  unfold column, category_sheet, getitem_col.
  destruct (lookup_all cat (cols df)) as [|c [|c' rest]]; try discriminate;
    intros _; simpl; eauto.
Qed.

Lemma category_sheet_inv df cat sh :
  category_sheet df cat = inr (Some sh) ->
  exists texts,
    column df cat = Some texts /\
    empty (getitem_mask df (map marked texts)) = false /\
    getitem_list (getitem_mask df (map marked texts))
      (METADATA_COLUMNS ++ [cat]) = inr (sheet_data sh) /\
    sheet_name sh = slice_to 31 cat.
Proof.
  intros E. destruct (column df cat) as [texts|] eqn:Ecol.
  - rewrite (category_sheet_unfold _ _ Ecol) in E. cbv zeta in E.
    exists texts. split; [reflexivity|].
    destruct (empty _); [discriminate|]. split; [reflexivity|].
    destruct (getitem_list _ _) as [e|d]; [discriminate|].
    unfold bind, ret in E. inversion E; subst. simpl. auto.
  - destruct (category_sheet_error _ _ Ecol) as (e & Ee). congruence.
Qed.

Lemma category_sheets_In df cats wb wb' failure sh :
  category_sheets df cats wb = (wb', failure) ->
  In sh wb' ->
  In sh wb \/ exists cat, In cat cats /\ category_sheet df cat = inr (Some sh).
Proof.
  revert wb. induction cats as [|cat cats IH]; intros wb E Hin; simpl in E.
  - inversion E; subst. auto.
  - destruct (category_sheet df cat) as [e | [s|]] eqn:C.
    + inversion E; subst. auto.
    + destruct (IH _ E Hin) as [X | (c & Hc & Ec)].
      * unfold to_excel in X. apply in_app_iff in X.
        destruct X as [X | [X | []]]; [auto|].
        right. exists cat. split; [left; reflexivity|].
        rewrite <- X. destruct s; exact C.
      * right. exists c. split; [right; assumption | assumption].
    + destruct (IH _ E Hin) as [X | (c & Hc & Ec)]; [auto|].
      right. exists c. split; [right; assumption | assumption].
Qed.

(** The sheet "All" is written first and stays. *)
Lemma category_sheets_prefix df cats wb wb' failure :
  category_sheets df cats wb = (wb', failure) ->
  exists more, wb' = wb ++ more.
Proof.
  revert wb. induction cats as [|cat cats IH]; intros wb E; simpl in E.
  - inversion E; subst. exists []. rewrite app_nil_r. reflexivity.
  - destruct (category_sheet df cat) as [e | [s|]].
    + inversion E; subst. exists []. rewrite app_nil_r. reflexivity.
    + destruct (IH _ E) as (more & ->). unfold to_excel.
      rewrite <- app_assoc. eauto.
    + apply IH; assumption.
Qed.




End Workbook.

(** C5.  For every row that survives the filter, and every metadata
    column, the FilteredDataset and every sheet handed to the workbook
    hold the value the loaded frame holds for that row; the pipeline only
    drops whole rows. *)
Theorem metadata_values_unchanged
    `{Runtime} (df : DataFrame) (chosen_indexes : list Z)
    (df_final : DataFrame) (wb : Workbook) (failure : option exn) :
  is_frame df = true ->
  run_conversion df chosen_indexes = Saved df_final wb failure ->
  incl (index df_final) (index df) /\
  forall m, In m METADATA_COLUMNS ->
    (forall l, In l (index df_final) ->
       exists v, value_at df l m = Some v /\ value_at df_final l m = Some v) /\
    (forall sh, In sh wb ->
       forall l, In l (index (sheet_data sh)) ->
         exists v, value_at df l m = Some v /\
                   value_at (sheet_data sh) l m = Some v).
Proof.
  intros Hf Erun.
  assert (Hd : is_dataset df = true).
  { unfold is_dataset. rewrite Hf, (saved_has_metadata _ _ Erun). reflexivity. }
  apply is_frame_inv in Hf. destruct Hf as (NDc & NDi & Al).
  apply run_conversion_saved in Erun. destruct Erun as (chosen & Ec & Ef & W).
  pose proof (choose_columns_incl _ _ Ec) as Hincl.
  destruct (@filter_and_project_spec _ df chosen Hd Hincl)
    as (mask & d & _ & Ef' & Ei & Ecols & NDf & Alf & Hmeta & _).
  rewrite Ef in Ef'. injection Ef' as <-.
  split.
  { intros l Hl. rewrite Ei in Hl. apply select_In in Hl.
    destruct Hl as (i & E & _). eapply nth_error_In; eassumption. }
  intros m Hm. destruct (Hmeta m Hm) as (col & Ecol & Len & Efin).
  assert (Snap : forall l, In l (index df_final) ->
            exists v, value_at df l m = Some v /\ value_at df_final l m = Some v).
  { apply (@value_at_restrict df df_final mask m col); assumption. }
  split; [exact Snap|].
  intros sh Hsh l Hl.
  unfold write_workbook in W.
  destruct (category_sheets_In _ _ _ _ W Hsh) as [X | (cat & Hcat & Esh)].
  - unfold to_excel in X. simpl in X. destruct X as [<- | []].
    simpl in *. apply Snap. assumption.
  - apply category_sheet_inv in Esh.
    destruct Esh as (texts & Et & _ & Eg & _).
    pose proof (getitem_list_inv _ _ Eg) as (Eidx & _ & _).
    destruct (@once_in_NoDup _ _ METADATA_COLUMNS_NoDup Hm)
      as (before & after & E & Hb & Ha).
    assert (Esheet : column (sheet_data sh) m
                     = Some (select (map marked texts) (select mask col))).
    { rewrite (@column_getitem_list _ (METADATA_COLUMNS ++ [cat])
                 (sheet_data sh) m before (after ++ [cat]) Eg).
      - rewrite column_getitem_mask, Efin. reflexivity.
      - rewrite E, <- app_assoc. reflexivity.
      - assumption.
      - rewrite in_app_iff. intros [X | [X | []]]; [tauto|]. subst cat.
        eapply chosen_not_metadata; eassumption. }
    assert (Len' : length (select mask col) = nrows df_final)
      by (eapply aligned_column; eassumption).
    destruct (@value_at_restrict df_final (sheet_data sh) (map marked texts)
                m (select mask col) NDf Efin Len' Eidx Esheet l Hl)
      as (v & V1 & V2).
    assert (Hl' : In l (index df_final)).
    { rewrite Eidx in Hl. simpl in Hl. apply select_In in Hl.
      destruct Hl as (i & E' & _). eapply nth_error_In; eassumption. }
    destruct (Snap l Hl') as (v' & V3 & V4).
    exists v. split; [congruence | assumption].
Qed.

Lemma metadata_values_unchanged_witness :
  is_frame Examples.journals_ab = true /\
  exists df_final wb failure,
    run_conversion (H := Toy.runtime) Examples.journals_ab [1; 2]%Z
      = Saved df_final wb failure /\
    forall sh, In sh wb -> forall l, In l (index (sheet_data sh)) ->
      exists v, value_at Examples.journals_ab l (lit "Punkty") = Some v /\
                value_at (sheet_data sh) l (lit "Punkty") = Some v.
Proof.
  assert (Hd : is_frame Examples.journals_ab = true) by (vm_compute; reflexivity).
  split; [exact Hd|].
  destruct (run_conversion (H := Toy.runtime) Examples.journals_ab [1; 2]%Z)
    as [inv | e | df_final wb failure] eqn:E;
    [vm_compute in E; discriminate | vm_compute in E; discriminate |].
  exists df_final, wb, failure. split; [reflexivity|].
  destruct (@metadata_values_unchanged Toy.runtime Examples.journals_ab
              [1; 2]%Z df_final wb failure Hd E) as (_ & Hm).
  apply Hm. vm_compute. tauto.
Defined.

(* ================================================================== *)
(** * Selections without and with a repeated index *)
(* ================================================================== *)

Lemma choose_columns_in_range (cat_columns : list pystr)
    (chosen_indexes : list Z) (x : result (list pystr)) :
  choose_columns cat_columns chosen_indexes = inr x ->
  forall idx, In idx chosen_indexes ->
    (1 <= idx <= Z.of_nat (length cat_columns))%Z.
Proof.
  unfold choose_columns.
  destruct (is_nil _) eqn:E; [|discriminate]. intros _ idx Hin.
  apply is_nil_true in E.
  pose proof (proj1 (filter_nil_iff _ _) E idx Hin) as X. simpl in X.
  apply orb_false_iff in X. rewrite Z.ltb_ge, Z.gtb_ltb, Z.ltb_ge in X. lia.
Qed.

(** Distinct indexes resolve to distinct names when the labels of the
    frame are distinct. *)
Lemma choose_columns_NoDup (cat_columns : list pystr)
    (chosen_indexes : list Z) (chosen : list pystr) :
  NoDup cat_columns -> NoDup chosen_indexes ->
  choose_columns cat_columns chosen_indexes = inr (inr chosen) ->
  NoDup chosen.
Proof.
  intros NDc NDi E.
  pose proof (choose_columns_in_range _ _ E) as Hvalid.
  destruct (choose_columns_valid cat_columns chosen_indexes Hvalid)
    as (names & E' & Len & Nth).
  rewrite E in E'. injection E' as <-.
  apply NoDup_nth_error. intros i j Hi Eij.
  rewrite Len in Hi.
  destruct (nth_error chosen_indexes i) as [a|] eqn:Ea;
    [|apply nth_error_None in Ea; lia].
  destruct (Nth i a Ea) as (n & En & Ecat).
  rewrite En in Eij. symmetry in Eij.
  assert (Hj : j < length chosen_indexes).
  { rewrite <- Len. apply nth_error_Some. congruence. }
  destruct (nth_error chosen_indexes j) as [b|] eqn:Eb;
    [|apply nth_error_None in Eb; lia].
  destruct (Nth j b Eb) as (n' & En' & Ecat').
  assert (n' = n) by congruence. subst n'.
  assert (Epos : Z.to_nat (a - 1) = Z.to_nat (b - 1))
    by (apply (@NoDup_nth_error_inj _ cat_columns _ _ n NDc Ecat Ecat')).
  assert (Ha : In a chosen_indexes) by (eapply nth_error_In; eassumption).
  assert (Hb : In b chosen_indexes) by (eapply nth_error_In; eassumption).
  apply Hvalid in Ha. apply Hvalid in Hb.
  assert (a = b) by lia. subst b.
  apply (@NoDup_nth_error_inj _ chosen_indexes _ _ a NDi Ea Eb).
Qed.

Lemma cat_columns_of_NoDup (df : DataFrame) :
  NoDup (columns df) -> NoDup (cat_columns_of df).
Proof. intros ND. apply NoDup_filter. assumption. Qed.

Section DistinctSelection.

Context `{Runtime}.


End DistinctSelection.



(** The end-to-end scenario of the specification: rows 0 and 1 are kept,
    the workbook has the sheets "All" (two rows), "A" (one row) and "B"
    (one row). *)
Example end_to_end_scenario :
  exists df_final wb,
    run_conversion (H := Toy.runtime) Examples.journals_ab [1; 2]%Z
      = Saved df_final wb None /\
    index df_final = [0; 1] /\
    map sheet_name wb = [lit "All"; lit "A"; lit "B"] /\
    map (fun sh => index (sheet_data sh)) wb = [[0; 1]; [0]; [1]].
Proof.
  destruct (run_conversion (H := Toy.runtime) Examples.journals_ab [1; 2]%Z)
    as [inv | e | df_final wb failure] eqn:E;
    [vm_compute in E; discriminate | vm_compute in E; discriminate |].
  exists df_final, wb. vm_compute in E. injection E as <- <- <-.
  repeat split.
Qed.

(** The marker test on single cells: case and surrounding white space
    (a no-break space included) do not matter, anything else does. *)
Example marked_examples `{Runtime} :
  marked (lit "x") = true /\ marked (lit "X") = true /\
  marked (lit "  x ") = true /\ marked [160; 88; 9]%N = true /\
  marked (lit "") = false /\ marked (lit "no") = false /\
  marked (lit "x x") = false /\ marked (lit "nan") = false.
Proof. repeat split. Qed.

(** The sheet "All" is handed to the writer first in every run that
    reaches the workbook, whatever happens in the loop after it. *)
Lemma all_sheet_always_written `{Runtime} (df_final : DataFrame)
    (chosen : list pystr) (wb : Workbook) (failure : option exn) :
  write_workbook df_final chosen = (wb, failure) ->
  exists more,
    wb = {| sheet_name := lit "All"; sheet_data := df_final |} :: more.
Proof.
  unfold write_workbook. intros E.
  destruct (category_sheets_prefix _ _ _ E) as (more & ->).
  exists more. reflexivity.
Qed.

(** C6 on the code.  The indexes 1, 1 are accepted and resolve to the
    name A twice; the projection then yields a FilteredDataset in which
    the column A stands twice, so its column names are not distinct. *)
Theorem repeated_index_repeats_column `{Runtime} :
  choose_columns (cat_columns_of Examples.journals_ab) [1; 1]%Z
    = inr (inr [lit "A"; lit "A"]) /\
  filter_and_project Examples.journals_ab [lit "A"; lit "A"]
    = inr Examples.journals_ab_A_twice /\
  columns Examples.journals_ab_A_twice
    = METADATA_COLUMNS ++ [lit "A"; lit "A"] /\
  ~ NoDup (columns Examples.journals_ab_A_twice).
Proof.
  split; [vm_compute; reflexivity|].
  split; [vm_compute; reflexivity|].
  split; [vm_compute; reflexivity|].
  intros ND. apply unique_labels_NoDup in ND. vm_compute in ND. discriminate.
Qed.

(** C7 on the code.  With the indexes 1, 1 the first row of the table is
    marked in A and survives the filter, yet the loop over the categories
    stops at its first turn with AttributeError (the frame has two columns
    A, so [df_final[cat]] is a frame and has no [.str]); the workbook holds
    the sheet "All" and no sheet for A. *)
Theorem repeated_index_stops_category_sheets `{Runtime} :
  run_conversion Examples.journals_ab [1; 1]%Z
    = Saved Examples.journals_ab_A_twice
        [ {| sheet_name := lit "All";
             sheet_data := Examples.journals_ab_A_twice |} ]
        (Some AttributeError) /\
  marked_at Examples.journals_ab (lit "A") 0 /\
  In 0 (index Examples.journals_ab_A_twice) /\
  category_sheet Examples.journals_ab_A_twice (lit "A") = inl AttributeError.
Proof.
  split; [vm_compute; reflexivity|].
  split; [exists (lit "x"); split; vm_compute; reflexivity|].
  split; [vm_compute; tauto|].
  vm_compute; reflexivity.
Qed.

(* ================================================================== *)
(** * The coercion to text (line 70) *)
(* ================================================================== *)

(** C8.  Coercing to text is idempotent: the text of a value, coerced
    again, is the same text; so is a whole frame coerced twice. *)
Theorem canonical_text_idempotent `{Runtime} :
  (forall v : pyobj, py_str (PStr (py_str v)) = py_str v) /\
  (forall raw : RawFrame,
     astype_str (as_raw (astype_str raw)) = astype_str raw).
Proof.
  split; [reflexivity|].
  intros [idx cs]. unfold astype_str, as_raw. simpl. f_equal.
  rewrite !map_map. apply map_ext. intros [n col]. simpl. f_equal.
  rewrite !map_map. apply map_ext. reflexivity.
Qed.

(** The coercion on cells that look like numbers or booleans. *)
Example py_str_examples :
  py_str (H := Toy.runtime) (PInt 140) = lit "140" /\
  py_str (H := Toy.runtime) (PInt (-7)) = lit "-7" /\
  py_str (H := Toy.runtime) (PBool true) = lit "True" /\
  py_str (H := Toy.runtime) (PStr (lit "x")) = lit "x".
Proof. repeat split. Qed.

(* ================================================================== *)
(** * The viewer *)
(* ================================================================== *)

Import Viewer.

Lemma viewer_metadata_same : Viewer.METADATA_COLUMNS = Maker.METADATA_COLUMNS.
Proof. reflexivity. Qed.

Lemma lookup_all_map_labels (S T : Type) (g : pystr * S -> pystr * T)
    (n : pystr) (cs : list (pystr * S)) :
  (forall c, fst (g c) = fst c) ->
  lookup_all n (map g cs) = map g (lookup_all n cs).
Proof.
  intros Hg. induction cs as [|c cs IH]; simpl; [reflexivity|].
  rewrite Hg. destruct (eqb (fst c) n); simpl; congruence.
Qed.

Lemma nth_map_true (A : Type) (g : A -> bool) (col : list A) (k : nat) :
  nth k (map g col) false = true <->
  exists v, nth_error col k = Some v /\ g v = true.
Proof.
  rewrite nth_true_iff, nth_error_map.
  destruct (nth_error col k) as [v|]; simpl.
  - split; [intros E; injection E as E; eauto|].
    intros (v' & E & M). congruence.
  - split; [discriminate | intros (v & E & _); discriminate].
Qed.

Lemma select_combine (A B : Type) (mask : list bool) (a : list A) (b : list B) :
  select mask (combine a b) = combine (select mask a) (select mask b).
Proof.
  revert mask b. induction a as [|x a IH]; intros mask [|y b].
  - reflexivity.
  - reflexivity.
  - change (combine (x :: a) (@nil B)) with (@nil (A * B)).
    change (select mask (@nil B)) with (@nil B).
    destruct (select mask (x :: a)); reflexivity.
  - destruct mask as [|m mask]; [reflexivity|].
    simpl combine at 1. rewrite !select_cons.
    destruct m; simpl; rewrite IH; reflexivity.
Qed.

Lemma nth_error_combine (A B : Type) (a : list A) (b : list B) (i : nat)
    (x : A) (y : B) :
  nth_error (combine a b) i = Some (x, y) <->
  nth_error a i = Some x /\ nth_error b i = Some y.
Proof.
  revert b i. induction a as [|x' a IH]; intros [|y' b] [|i]; simpl;
    try (split; [discriminate | intros [? ?]; discriminate]).
  - split; [intros E; inversion E; auto | intros [E1 E2]; congruence].
  - apply IH.
Qed.

(** ** Sorting keeps the rows *)

Lemma insert_key_perm (x : spec_float * nat) (l : list (spec_float * nat)) :
  Permutation (insert_key x l) (x :: l).
Proof.
  induction l as [|y l IH]; simpl; [reflexivity|].
  destruct (before (fst x) (fst y)); [reflexivity|].
  rewrite IH. apply perm_swap.
Qed.

Lemma sort_keys_perm (l : list (spec_float * nat)) :
  Permutation (fold_right insert_key [] l) l.
Proof.
  induction l as [|x l IH]; simpl; [reflexivity|].
  rewrite insert_key_perm. apply perm_skip. exact IH.
Qed.

Lemma map_snd_combine (A B : Type) (a : list A) (b : list B) :
  length a = length b -> map snd (combine a b) = b.
Proof.
  revert b; induction a as [|x a IH]; intros [|y b] E; try discriminate;
    [reflexivity|].
  simpl. f_equal. apply IH. simpl in E. congruence.
Qed.

Lemma sort_order_perm (keys : list spec_float) :
  Permutation (sort_order keys) (seq 0 (length keys)).
Proof.
  unfold sort_order. rewrite sort_keys_perm.
  rewrite map_snd_combine; [reflexivity|].
  rewrite length_seq. reflexivity.
Qed.

Lemma take_In (A : Type) (order : list nat) (l : list A) (x : A) :
  In x (take order l) <-> exists i, In i order /\ nth_error l i = Some x.
Proof.
  unfold take. rewrite in_flat_map. split.
  - intros (i & Hi & Hx). exists i. split; [assumption|].
    destruct (nth_error l i); [destruct Hx as [<- | []]; reflexivity | destruct Hx].
  - intros (i & Hi & E). exists i. split; [assumption|].
    rewrite E. left; reflexivity.
Qed.

(** The sorted index holds the labels the frame had. *)
Lemma take_sort_order_In (keys : list spec_float) (labels : list nat) (l : nat) :
  length keys = length labels ->
  (In l (take (sort_order keys) labels) <-> In l labels).
Proof.
  intros Len. rewrite take_In. split.
  - intros (i & _ & E). eapply nth_error_In; eassumption.
  - intros Hin. apply In_nth_error in Hin. destruct Hin as (i & E).
    exists i. split; [|assumption].
    apply (Permutation_in _ (Permutation_sym (sort_order_perm keys))).
    apply in_seq. assert (i < length labels) by (apply nth_error_Some; congruence).
    lia.
Qed.

Section ViewerFrames.

Context `{Runtime}.
Implicit Types (df out : VFrame) (mask : list bool).

Lemma vgetitem_mask_column df mask n c :
  vgetitem df n = inr c ->
  vgetitem (vgetitem_mask df mask) n = inr (select_column mask c).
Proof.
  unfold vgetitem, vgetitem_mask. simpl.
  rewrite (lookup_all_map_labels
             (fun c => (fst c, select_column mask (snd c))))
    by reflexivity.
  destruct (lookup_all n (vcols df)) as [|c0 [|c1 rest]]; simpl;
    try discriminate.
  intros E. inversion E; subst. reflexivity.
Qed.

Lemma sort_values_desc_index out df keys :
  vgetitem df (lit "Punkty") = inr (NumCol keys) ->
  sort_values_desc df (lit "Punkty") = inr out ->
  vindex out = take (sort_order keys) (vindex df).
Proof.
  unfold sort_values_desc. intros ->. simpl.
  intros E. inversion E; subst. reflexivity.
Qed.

Lemma in_range_nan (min_points max_points : spec_float) :
  in_range min_points max_points S754_nan = false.
Proof.
  unfold in_range, SFgeb, SFleb.
  destruct min_points; reflexivity.
Qed.

(** What line 195 to 200 leave of the index, for a frame whose "Punkty"
    column is numeric. *)
Lemma filter_rows_index df pts min_points max_points selected_category out :
  vgetitem df (lit "Punkty") = inr (NumCol pts) ->
  length pts = length (vindex df) ->
  filter_rows df min_points max_points selected_category = inr out ->
  let rmask := map (in_range min_points max_points) pts in
  if eqb selected_category (lit "All")
  then forall l, In l (vindex out) <-> In l (select rmask (vindex df))
  else exists texts,
      vgetitem df selected_category = inr (StrCol texts) /\
      forall l, In l (vindex out) <->
        In l (select (map viewer_marked (select rmask texts))
                (select rmask (vindex df))).
Proof.
  intros Ep Len. unfold filter_rows. rewrite Ep.
  cbn [bind range_mask ret].
  set (rmask := map (in_range min_points max_points) pts).
  set (f1 := vgetitem_mask df rmask). intros E.
  assert (Ep1 : vgetitem f1 (lit "Punkty") = inr (NumCol (select rmask pts)))
    by (apply (vgetitem_mask_column _ rmask _ Ep)).
  assert (Len1 : length (select rmask pts) = length (vindex f1))
    by (apply select_length_eq; assumption).
  destruct (eqb selected_category (lit "All")); cbn [negb bind ret] in E.
  - rewrite (sort_values_desc_index _ Ep1 E). intros l.
    apply take_sort_order_In. exact Len1.
  - destruct (vgetitem df selected_category) as [e|c] eqn:Ec.
    + exfalso. unfold vgetitem in Ec.
      unfold vgetitem at 1 in E. unfold f1, vgetitem_mask in E.
      cbn [vcols] in E.
      rewrite (lookup_all_map_labels
                 (fun c => (fst c, select_column rmask (snd c)))) in E
        by reflexivity.
      destruct (lookup_all selected_category (vcols df)) as [|c0 [|c1 rest]];
        try discriminate Ec; cbn in E; discriminate E.
    + unfold f1 in E. rewrite (vgetitem_mask_column _ rmask _ Ec) in E.
      destruct c as [texts | nums]; cbn [select_column category_mask bind ret] in E;
        [|discriminate].
      exists texts. split; [reflexivity|].
      set (cmask := map viewer_marked (select rmask texts)) in *.
      assert (Ep2 : vgetitem (vgetitem_mask f1 cmask) (lit "Punkty")
                    = inr (NumCol (select cmask (select rmask pts))))
        by (apply (vgetitem_mask_column _ cmask _ Ep1)).
      rewrite (sort_values_desc_index _ Ep2 E). intros l.
      apply take_sort_order_In. apply select_length_eq. exact Len1.
Qed.

End ViewerFrames.

Lemma select_twice_In (A B : Type) (g : B -> bool) (rmask : list bool)
    (labels : list A) (texts : list B) (l : A) :
  In l (select (map g (select rmask texts)) (select rmask labels)) <->
  exists j v, nth_error labels j = Some l /\ nth_error texts j = Some v /\
              nth j rmask false = true /\ g v = true.
Proof.
  rewrite select_In. split.
  - intros (k & Ek & Mk). apply nth_map_true in Mk. destruct Mk as (v & Ev & Gv).
    assert (X : nth_error (combine (select rmask labels) (select rmask texts)) k
                = Some (l, v)) by (apply nth_error_combine; auto).
    rewrite <- select_combine in X. apply nth_error_In in X.
    apply select_In in X. destruct X as (j & Ej & Mj).
    apply nth_error_combine in Ej. destruct Ej as [E1 E2].
    exists j, v. auto.
  - intros (j & v & E1 & E2 & Mj & Gv).
    assert (X : In (l, v) (select rmask (combine labels texts))).
    { apply select_In. exists j. split; [|assumption].
      apply nth_error_combine. auto. }
    rewrite select_combine in X. apply In_nth_error in X.
    destruct X as (k & Ek). apply nth_error_combine in Ek.
    destruct Ek as [K1 K2]. exists k. split; [assumption|].
    apply nth_map_true. eauto.
Qed.

Section ViewerClaims.

Context `{Runtime}.

Lemma load_database_spec (snapshot : DataFrame) (vdf : VFrame) :
  load_database snapshot = Some vdf ->
  exists texts,
    column snapshot (lit "Punkty") = Some texts /\
    vindex vdf = index snapshot /\
    vgetitem vdf (lit "Punkty") = inr (NumCol (to_numeric_coerce texts)) /\
    (forall n col, n <> lit "Punkty" -> column snapshot n = Some col ->
                   vgetitem vdf n = inr (StrCol col)).
Proof.
  unfold load_database, getitem_col, column.
  destruct (lookup_all (lit "Punkty") (cols snapshot)) as [|c [|c' rest]] eqn:L;
    try discriminate.
  simpl. intros E. injection E as <-. exists (snd c).
  split; [reflexivity|]. split; [reflexivity|].
  set (g := fun c0 : pystr * list pystr =>
              if eqb (fst c0) (lit "Punkty")
              then (fst c0, NumCol (to_numeric_coerce (snd c)))
              else (fst c0, StrCol (snd c0))).
  assert (Hg : forall c0, fst (g c0) = fst c0).
  { intros c0. unfold g. destruct (eqb (fst c0) (lit "Punkty")); reflexivity. }
  split.
  - unfold vgetitem. cbn [vcols]. fold g.
    rewrite (lookup_all_map_labels g _ _ Hg), L. simpl.
    unfold g.
    assert (F : fst c = lit "Punkty").
    { destruct (@lookup_all_labels _ (cols snapshot) (lit "Punkty") c);
        [rewrite L; left; reflexivity | assumption]. }
    rewrite F, eqb_refl. reflexivity.
  - intros n col Hn. unfold vgetitem. cbn [vcols]. fold g.
    rewrite (lookup_all_map_labels g _ _ Hg).
    destruct (lookup_all n (cols snapshot)) as [|c0 [|c1 r]] eqn:Ln;
      try discriminate.
    intros E. injection E as <-. simpl. unfold g.
    assert (F : fst c0 = n).
    { destruct (@lookup_all_labels _ (cols snapshot) n c0);
        [rewrite Ln; left; reflexivity | assumption]. }
    rewrite F. apply eqb_neq in Hn. rewrite Hn. reflexivity.
Qed.

Lemma to_numeric_coerce_nan (texts : list pystr) (i : nat) (v : pystr) :
  nth_error texts i = Some v -> numeric_of_str v = None ->
  nth_error (to_numeric_coerce texts) i = Some S754_nan.
Proof.
  intros E N. unfold to_numeric_coerce. rewrite nth_error_map, E. simpl.
  rewrite N. reflexivity.
Qed.

Lemma apply_filters_shown (vdf out : VFrame) (min_entry max_entry cat : pystr) :
  apply_filters vdf min_entry max_entry cat = Shown out ->
  exists min_points max_points,
    float_of_str min_entry = Some min_points /\
    float_of_str max_entry = Some max_points /\
    filter_rows vdf min_points max_points cat = inr out.
Proof.
  unfold apply_filters.
  destruct (float_of_str min_entry) as [mn|]; [|discriminate].
  destruct (float_of_str max_entry) as [mx|]; [|discriminate].
  destruct (filter_rows vdf mn mx cat) as [e|o] eqn:F; [discriminate|].
  intros E. injection E as <-. eauto.
Qed.

(** A row is shown only if its points are within the bounds. *)
Lemma filter_rows_in_range (vdf out : VFrame) (pts : list spec_float)
    (min_points max_points : spec_float) (cat : pystr) (i l : nat) :
  NoDup (vindex vdf) -> length pts = length (vindex vdf) ->
  vgetitem vdf (lit "Punkty") = inr (NumCol pts) ->
  filter_rows vdf min_points max_points cat = inr out ->
  nth_error (vindex vdf) i = Some l ->
  In l (vindex out) ->
  exists p, nth_error pts i = Some p /\ in_range min_points max_points p = true.
Proof.
  intros ND Len Ep F Ei Hin.
  pose proof (@filter_rows_index _ vdf pts min_points max_points cat out
                Ep Len F) as S.
  cbv zeta in S.
  assert (X : In l (select (map (in_range min_points max_points) pts) (vindex vdf))).
  { destruct (eqb cat (lit "All")).
    - apply S. assumption.
    - destruct S as (texts & _ & S). apply S in Hin.
      apply select_In in Hin. destruct Hin as (k & Ek & _).
      eapply nth_error_In; eassumption. }
  apply select_In in X. destruct X as (j & Ej & Mj).
  assert (j = i) by (apply (@NoDup_nth_error_inj _ (vindex vdf) _ _ l ND Ej Ei)).
  subst j. apply nth_map_true in Mj. assumption.
Qed.

End ViewerClaims.

(** C9.  On load every "Punkty" text that [pd.to_numeric] cannot read
    becomes NaN; NaN satisfies the range test of the viewer for no bounds;
    and a row whose points are NaN is in no table that [apply_filters]
    shows, whatever the bounds and the category. *)
Theorem null_points_never_in_range `{Runtime} :
  (forall snapshot vdf, load_database snapshot = Some vdf ->
     exists texts,
       column snapshot (lit "Punkty") = Some texts /\
       vindex vdf = index snapshot /\
       vgetitem vdf (lit "Punkty") = inr (NumCol (to_numeric_coerce texts)) /\
       (forall i v, nth_error texts i = Some v -> numeric_of_str v = None ->
          nth_error (to_numeric_coerce texts) i = Some S754_nan)) /\
  (forall min_points max_points,
     in_range min_points max_points S754_nan = false) /\
  (forall vdf pts min_entry max_entry cat out i l,
     NoDup (vindex vdf) -> length pts = length (vindex vdf) ->
     vgetitem vdf (lit "Punkty") = inr (NumCol pts) ->
     apply_filters vdf min_entry max_entry cat = Shown out ->
     nth_error (vindex vdf) i = Some l ->
     nth_error pts i = Some S754_nan ->
     ~ In l (vindex out)).
Proof.
  split; [|split].
  - intros snapshot vdf E.
    destruct (@load_database_spec _ snapshot vdf E) as (texts & Ec & Ei & Ep & _).
    exists texts. repeat split; try assumption.
    intros i v. apply to_numeric_coerce_nan.
  - apply in_range_nan.
  - intros vdf pts min_entry max_entry cat out i l ND Len Ep E Ei En Hin.
    apply apply_filters_shown in E.
    destruct E as (mn & mx & _ & _ & F).
    destruct (@filter_rows_in_range _ vdf out pts mn mx cat i l
                ND Len Ep F Ei Hin) as (p & Ep' & R).
    assert (p = S754_nan) by congruence. subst p.
    rewrite in_range_nan in R. discriminate.
Qed.

Lemma null_points_never_in_range_witness :
  exists vdf out,
    load_database (H := Toy.runtime) Examples.journals_ab = Some vdf /\
    cell Examples.journals_ab (lit "Punkty") 2 = Some (lit "n/a") /\
    apply_filters (H := Toy.runtime) vdf (lit "0") (lit "200") (lit "All")
      = Shown out /\
    In 0 (vindex out) /\ In 1 (vindex out) /\ ~ In 2 (vindex out).
Proof.
  destruct (load_database (H := Toy.runtime) Examples.journals_ab)
    as [vdf|] eqn:L; [|vm_compute in L; discriminate].
  destruct (apply_filters (H := Toy.runtime) vdf (lit "0") (lit "200") (lit "All"))
    as [| e | out] eqn:A.
  - vm_compute in L. injection L as <-. vm_compute in A. discriminate.
  - vm_compute in L. injection L as <-. vm_compute in A. discriminate.
  - exists vdf, out. split; [reflexivity|].
    split; [vm_compute; reflexivity|]. split; [exact A|].
    destruct (@null_points_never_in_range Toy.runtime) as (Hload & _ & Hout).
    destruct (Hload _ _ L) as (texts & Et & Ei & Ep & _).
    assert (Hnan : ~ In 2 (vindex out)).
    { apply (Hout vdf (to_numeric_coerce (H := Toy.runtime) texts)
               (lit "0") (lit "200") (lit "All") out 2 2).
      - rewrite Ei. apply unique_rows_NoDup. reflexivity.
      - rewrite Ei. vm_compute in Et. injection Et as <-. reflexivity.
      - exact Ep.
      - exact A.
      - rewrite Ei. reflexivity.
      - vm_compute in Et. injection Et as <-. reflexivity. }
    vm_compute in L. injection L as <-. vm_compute in A. injection A as <-.
    split; [simpl; auto|]. split; [simpl; auto|]. exact Hnan.
Defined.

Section CategoryFilter.

Context `{Runtime}.

Lemma viewer_marked_iff (v : pystr) :
  viewer_marked v = true <-> lower v = lit "x".
Proof. unfold viewer_marked. apply eqb_eq. Qed.

(** The rows [apply_filters] shows for a category. *)
Lemma filter_rows_category (vdf out : VFrame) (pts : list spec_float)
    (texts : list pystr) (min_points max_points : spec_float)
    (cat : pystr) (i l : nat) :
  NoDup (vindex vdf) -> length pts = length (vindex vdf) ->
  vgetitem vdf (lit "Punkty") = inr (NumCol pts) ->
  vgetitem vdf cat = inr (StrCol texts) ->
  cat <> lit "All" ->
  filter_rows vdf min_points max_points cat = inr out ->
  nth_error (vindex vdf) i = Some l ->
  (In l (vindex out) <->
   exists p v,
     nth_error pts i = Some p /\ in_range min_points max_points p = true /\
     nth_error texts i = Some v /\ lower v = lit "x").
Proof.
  intros ND Len Ep Ec Hcat F Ei.
  pose proof (@filter_rows_index _ vdf pts min_points max_points cat out
                Ep Len F) as S.
  cbv zeta in S. apply eqb_neq in Hcat. rewrite Hcat in S.
  destruct S as (texts' & Ec' & S). rewrite Ec in Ec'. injection Ec' as <-.
  rewrite S, select_twice_In. split.
  - intros (j & v & Ej & Ev & Mj & Gv).
    assert (j = i) by (apply (@NoDup_nth_error_inj _ (vindex vdf) _ _ l ND Ej Ei)).
    subst j. apply nth_map_true in Mj. destruct Mj as (p & Ep' & R).
    exists p, v. apply viewer_marked_iff in Gv. auto.
  - intros (p & v & Ep' & R & Ev & Gv).
    exists i, v. repeat split; try assumption.
    + apply nth_map_true. eauto.
    + apply viewer_marked_iff. assumption.
Qed.

End CategoryFilter.

(** C10.  The category filter of the viewer keeps a row if and only if
    the lower-cased cell of the category equals "x", with nothing
    stripped (and the points of the row are within the bounds).  It is not
    the marker test of the pipeline: the cell "  x " is a marker for the
    pipeline and is not one for the viewer, and the row of the table
    [Examples.padded], which holds that cell in category A, survives the
    filter of the pipeline for A and is in no table the viewer shows for
    category A, whatever the bounds. *)
Theorem viewer_category_filter_differs_from_marker `{Runtime} :
  (forall v, viewer_marked v = true <-> lower v = lit "x") /\
  (forall vdf pts texts min_points max_points cat out i l,
     NoDup (vindex vdf) -> length pts = length (vindex vdf) ->
     vgetitem vdf (lit "Punkty") = inr (NumCol pts) ->
     vgetitem vdf cat = inr (StrCol texts) ->
     cat <> lit "All" ->
     filter_rows vdf min_points max_points cat = inr out ->
     nth_error (vindex vdf) i = Some l ->
     (In l (vindex out) <->
      exists p v,
        nth_error pts i = Some p /\ in_range min_points max_points p = true /\
        nth_error texts i = Some v /\ lower v = lit "x")) /\
  (marked (lit "  x ") = true /\ viewer_marked (lit "  x ") = false) /\
  (cell Examples.padded (lit "A") 0 = Some (lit "  x ") /\
   run_conversion Examples.padded [1]%Z
     = Saved Examples.padded
         [ {| sheet_name := lit "All"; sheet_data := Examples.padded |};
           {| sheet_name := lit "A"; sheet_data := Examples.padded |} ]
         None /\
   index Examples.padded = [0] /\
   forall vdf min_entry max_entry out,
     load_database Examples.padded = Some vdf ->
     apply_filters vdf min_entry max_entry (lit "A") = Shown out ->
     ~ In 0 (vindex out)).
Proof.
  split; [apply viewer_marked_iff|].
  split; [intros; eapply filter_rows_category; eassumption|].
  split; [split; vm_compute; reflexivity|].
  split; [vm_compute; reflexivity|].
  split; [vm_compute; reflexivity|].
  split; [reflexivity|].
  intros vdf min_entry max_entry out L E Hin.
  destruct (@load_database_spec _ Examples.padded vdf L)
    as (texts & Et & Ei & Ep & Hother).
  apply apply_filters_shown in E. destruct E as (mn & mx & _ & _ & F).
  assert (Ea : vgetitem vdf (lit "A") = inr (StrCol [lit "  x "])).
  { apply Hother; [vm_compute; discriminate | vm_compute; reflexivity]. }
  assert (Et' : texts = [lit "100"])
    by (vm_compute in Et; injection Et as <-; reflexivity).
  subst texts.
  assert (ND : NoDup (vindex vdf)).
  { rewrite Ei. repeat constructor. simpl. tauto. }
  assert (Len : length (to_numeric_coerce [lit "100"]) = length (vindex vdf))
    by (rewrite Ei; reflexivity).
  assert (E0 : nth_error (vindex vdf) 0 = Some 0) by (rewrite Ei; reflexivity).
  assert (Hcat : lit "A" <> lit "All") by (vm_compute; discriminate).
  apply (@filter_rows_category _ vdf out _ _ mn mx (lit "A") 0 0
           ND Len Ep Ea Hcat F E0) in Hin.
  destruct Hin as (p & v & _ & _ & Ev & Lv).
  simpl in Ev. injection Ev as <-. vm_compute in Lv. discriminate.
Qed.

Lemma viewer_category_filter_differs_from_marker_witness :
  exists vdf shown_all,
    load_database (H := Toy.runtime) Examples.padded = Some vdf /\
    apply_filters (H := Toy.runtime) vdf (lit "0") (lit "200") (lit "All")
      = Shown shown_all /\
    In 0 (vindex shown_all) /\
    forall out,
      apply_filters (H := Toy.runtime) vdf (lit "0") (lit "200") (lit "A")
        = Shown out ->
      ~ In 0 (vindex out).
Proof.
  destruct (load_database (H := Toy.runtime) Examples.padded) as [vdf|] eqn:L;
    [|vm_compute in L; discriminate].
  destruct (apply_filters (H := Toy.runtime) vdf (lit "0") (lit "200") (lit "All"))
    as [| e | shown_all] eqn:A.
  - vm_compute in L. injection L as <-. vm_compute in A. discriminate.
  - vm_compute in L. injection L as <-. vm_compute in A. discriminate.
  - exists vdf, shown_all. split; [reflexivity|]. split; [exact A|].
    split.
    + vm_compute in L. injection L as <-. vm_compute in A.
      injection A as <-. simpl. auto.
    + intros out E.
      destruct (@viewer_category_filter_differs_from_marker Toy.runtime)
        as (_ & _ & _ & _ & _ & _ & Hout).
      exact (Hout vdf (lit "0") (lit "200") out L E).
Defined.

(* ================================================================== *)
(** * The prompt (lines 99-105) *)
(* ================================================================== *)

Import Prompt.

Lemma lstrip_app_space (ws s : pystr) :
  forallb isspace ws = true -> lstrip (ws ++ s) = lstrip s.
Proof.
  induction ws as [|c ws IH]; simpl; [reflexivity|].
  rewrite andb_true_iff. intros [Hc Hws]. rewrite Hc. auto.
Qed.

Lemma lstrip_blank (s : pystr) : forallb isspace s = true -> lstrip s = [].
Proof.
  intros Hs. rewrite <- (app_nil_r s). rewrite lstrip_app_space by assumption.
  reflexivity.
Qed.

Lemma lstrip_nil_blank (s : pystr) : lstrip s = [] -> forallb isspace s = true.
Proof.
  induction s as [|c s IH]; simpl; [reflexivity|].
  destruct (isspace c); [auto | discriminate].
Qed.

(** What is stripped on the left is white space, and what is left starts
    with something else. *)
Lemma lstrip_decomp (s : pystr) :
  exists ws, forallb isspace ws = true /\ s = ws ++ lstrip s.
Proof.
  induction s as [|c s (ws & Hws & E)]; [exists []; auto|].
  simpl. destruct (isspace c) eqn:Hc.
  - exists (c :: ws). simpl. rewrite Hc, Hws. split; [reflexivity|].
    f_equal. exact E.
  - exists []. auto.
Qed.

Lemma lstrip_snoc (t : pystr) (c : N) :
  lstrip (t ++ [c]) =
  if forallb isspace t then lstrip [c] else lstrip t ++ [c].
Proof.
  induction t as [|a t IH]; [reflexivity|].
  simpl. destruct (isspace a); simpl; [exact IH | reflexivity].
Qed.

Lemma strip_cons_space (c : N) (t : pystr) :
  isspace c = true -> strip (c :: t) = strip t.
Proof. intros Hc. unfold strip. simpl. rewrite Hc. reflexivity. Qed.

Lemma strip_snoc_space (c : N) (t : pystr) :
  isspace c = true -> strip (t ++ [c]) = strip t.
Proof.
  intros Hc. unfold strip. rewrite lstrip_snoc.
  destruct (forallb isspace t) eqn:Ht.
  - simpl. rewrite Hc. rewrite lstrip_blank by exact Ht. reflexivity.
  - unfold rstrip. rewrite rev_app_distr. simpl. rewrite Hc. reflexivity.
Qed.

Lemma strip_blank (s : pystr) : forallb isspace s = true -> strip s = [].
Proof. intros Hs. unfold strip. rewrite lstrip_blank by exact Hs. reflexivity. Qed.

Lemma forallb_rev (A : Type) (f : A -> bool) (l : list A) :
  forallb f (rev l) = forallb f l.
Proof.
  induction l as [|a l IH]; [reflexivity|].
  simpl. rewrite forallb_app, IH. simpl. rewrite andb_true_r. apply andb_comm.
Qed.

Lemma rstrip_decomp (s : pystr) :
  exists ws, forallb isspace ws = true /\ s = rstrip s ++ ws.
Proof.
  destruct (lstrip_decomp (rev s)) as (ws & Hws & E).
  exists (rev ws). split; [rewrite forallb_rev; assumption|].
  unfold rstrip. rewrite <- rev_app_distr, <- E, rev_involutive. reflexivity.
Qed.

Lemma isspace_comma : isspace comma = false.
Proof. reflexivity. Qed.

Section Split.

Variable sep : N.

Lemma split_not_nil (s : pystr) : split sep s <> [].
Proof.
  destruct s as [|c s]; simpl; [discriminate|].
  destruct (c =? sep)%N; [discriminate|].
  destruct (split sep s); discriminate.
Qed.

Lemma split_cons_other (c : N) (s : pystr) :
  c <> sep ->
  exists tok toks, split sep s = tok :: toks /\
                   split sep (c :: s) = (c :: tok) :: toks.
Proof.
  intros Hc. simpl. apply N.eqb_neq in Hc. rewrite Hc.
  destruct (split sep s) as [|tok toks] eqn:E; [destruct (split_not_nil _ E)|].
  eauto.
Qed.

Lemma split_snoc_other (c : N) (t : pystr) :
  c <> sep ->
  exists init last,
    split sep t = init ++ [last] /\
    split sep (t ++ [c]) = init ++ [last ++ [c]].
Proof.
  intros Hc. pose proof Hc as Hc'. apply N.eqb_neq in Hc'.
  induction t as [|a t (init & last & E1 & E2)].
  - exists [], []. simpl. rewrite Hc'. auto.
  - simpl. rewrite E1, E2. destruct (a =? sep)%N.
    + exists ([] :: init), last. auto.
    + destruct init as [|i init]; simpl.
      * exists [], (a :: last). auto.
      * exists ((a :: i) :: init), last. auto.
Qed.

Lemma split_join (toks : list pystr) :
  toks <> [] -> Forall (fun t => ~ In sep t) toks ->
  split sep (join sep toks) = toks.
Proof.
  induction toks as [|t toks IH]; [congruence|]. intros _ Hfree.
  inversion Hfree as [|? ? Ht Hrest]; subst.
  assert (Tok : forall rest more, split sep rest = more ->
            more <> [] ->
            split sep (t ++ rest) =
            match more with
            | tok :: others => (t ++ tok) :: others
            | [] => []
            end).
  { intros rest more <- Hne. clear IH Hfree Hrest.
    induction t as [|c t IHt]; simpl.
    - destruct (split sep rest); [congruence | reflexivity].
    - assert (c <> sep) by (intros ->; apply Ht; left; reflexivity).
      apply N.eqb_neq in H. rewrite H.
      rewrite IHt by (intros X; apply Ht; right; assumption).
      destruct (split sep rest); [congruence | reflexivity]. }
  destruct toks as [|u toks].
  - simpl. rewrite <- (app_nil_r t) at 1.
    rewrite (Tok [] [[]]); [rewrite app_nil_r; reflexivity | reflexivity |
                            discriminate].
  - change (join sep (t :: u :: toks)) with (t ++ sep :: join sep (u :: toks)).
    rewrite (Tok (sep :: join sep (u :: toks)) ([] :: u :: toks)).
    + rewrite app_nil_r. reflexivity.
    + simpl split. rewrite N.eqb_refl. f_equal.
      apply IH; [discriminate | assumption].
    + discriminate.
Qed.

(** The tokens hold the code points of the text other than the
    separator. *)
Lemma split_In (s : pystr) (tok : pystr) (c : N) :
  In tok (split sep s) -> In c tok -> In c s /\ c <> sep.
Proof.
  revert tok. induction s as [|a s IH]; intros tok Ht Hc.
  - simpl in Ht. destruct Ht as [<- | []]. destruct Hc.
  - simpl in Ht. destruct (N.eqb_spec a sep) as [-> | Ha].
    + destruct Ht as [<- | Ht]; [destruct Hc|].
      destruct (IH tok Ht Hc). split; [right; assumption | assumption].
    + destruct (split sep s) as [|t0 ts] eqn:E; [destruct (split_not_nil _ E)|].
      destruct Ht as [<- | Ht].
      * destruct Hc as [<- | Hc]; [split; [left; reflexivity | assumption]|].
        destruct (IH t0 (or_introl eq_refl) Hc).
        split; [right; assumption | assumption].
      * destruct (IH tok (or_intror Ht) Hc).
        split; [right; assumption | assumption].
Qed.

End Split.

Section Tokens.

Context `{IntReader}.

Lemma traverse_strip (l : list pystr) :
  traverse (fun x => py_int (strip x)) (filter nonblank l) =
  traverse py_int (filter (fun t => negb (is_nil t)) (map strip l)).
Proof.
  induction l as [|x l IH]; [reflexivity|].
  simpl. unfold nonblank at 1. destruct (negb (is_nil (strip x))); simpl;
    rewrite IH; reflexivity.
Qed.

Lemma strip_tokens_lstrip (s : pystr) :
  map strip (split comma (lstrip s)) = map strip (split comma s).
Proof.
  induction s as [|c s IH]; [reflexivity|].
  simpl lstrip. destruct (isspace c) eqn:Hc; [|reflexivity].
  rewrite IH.
  assert (Hne : c <> comma) by (intros ->; discriminate).
  destruct (@split_cons_other comma c s Hne) as (tok & toks & E1 & E2).
  rewrite E1, E2. simpl. rewrite strip_cons_space by exact Hc. reflexivity.
Qed.

Lemma strip_tokens_app_space (t ws : pystr) :
  forallb isspace ws = true ->
  map strip (split comma (t ++ ws)) = map strip (split comma t).
Proof.
  revert t. induction ws as [|c ws IH]; intros t Hws.
  - rewrite app_nil_r. reflexivity.
  - simpl in Hws. apply andb_true_iff in Hws. destruct Hws as [Hc Hws].
    change (t ++ c :: ws) with (t ++ [c] ++ ws). rewrite app_assoc.
    rewrite IH by assumption.
    assert (Hne : c <> comma) by (intros ->; discriminate).
    destruct (@split_snoc_other comma c t Hne) as (init & last & E1 & E2).
    rewrite E1, E2, !map_app. simpl.
    rewrite strip_snoc_space by exact Hc. reflexivity.
Qed.

Lemma strip_tokens_strip (s : pystr) :
  map strip (split comma (strip s)) = map strip (split comma s).
Proof.
  change (strip s) with (rstrip (lstrip s)).
  transitivity (map strip (split comma (lstrip s)));
    [|apply strip_tokens_lstrip].
  destruct (rstrip_decomp (lstrip s)) as (ws & Hws & E).
  rewrite <- (@strip_tokens_app_space (rstrip (lstrip s)) ws Hws).
  rewrite <- E. reflexivity.
Qed.

Lemma parse_indexes_unfold (typed : pystr) :
  parse_indexes typed =
  traverse py_int
    (filter (fun t => negb (is_nil t)) (map strip (split comma typed))).
Proof.
  unfold parse_indexes. cbv zeta.
  rewrite traverse_strip, strip_tokens_strip. reflexivity.
Qed.

Lemma traverse_None (A B : Type) (f : A -> option B) (l : list A) (a : A) :
  In a l -> f a = None -> traverse f l = None.
Proof.
  induction l as [|x l IH]; intros Hin Ha; [destruct Hin|].
  simpl. destruct Hin as [<- | Hin].
  - rewrite Ha. reflexivity.
  - destruct (f x); [|reflexivity]. rewrite (IH Hin Ha). reflexivity.
Qed.

End Tokens.

(** For text made of tokens joined by commas: white space around the text
    and around a token does not matter, empty and blank tokens are
    skipped, the other tokens are read by [int] in the order typed, and
    one token that is not an integer makes the whole text fail. *)
Theorem parse_indexes_of_tokens `{IntReader} (toks : list pystr) :
  toks <> [] ->
  Forall (fun t => ~ In comma t) toks ->
  parse_indexes (join comma toks) =
    traverse py_int (filter (fun t => negb (is_nil t)) (map strip toks)) /\
  (forall t, In t toks -> strip t <> [] -> py_int (strip t) = None ->
     parse_indexes (join comma toks) = None).
Proof.
  intros Hne Hfree.
  assert (E : parse_indexes (join comma toks) =
              traverse py_int
                (filter (fun t => negb (is_nil t)) (map strip toks))).
  { rewrite parse_indexes_unfold, split_join by assumption. reflexivity. }
  split; [exact E|].
  intros t Hin Hnb Hbad. rewrite E.
  apply traverse_None with (a := strip t); [|assumption].
  apply filter_In. split; [apply in_map; assumption|].
  destruct (strip t); [congruence | reflexivity].
Qed.

Lemma parse_indexes_of_tokens_witness :
  [lit " 2"; lit ""; lit "10 "; lit "  "; lit "-1"] <> [] /\
  Forall (fun t => ~ In comma t)
    [lit " 2"; lit ""; lit "10 "; lit "  "; lit "-1"] /\
  parse_indexes (H := ToyInt.reader) (lit " 2,,10 ,  ,-1")
    = Some [2; 10; -1]%Z /\
  parse_indexes (H := ToyInt.reader) (lit "1,two,3") = None.
Proof.
  assert (Hne : [lit " 2"; lit ""; lit "10 "; lit "  "; lit "-1"] <> [])
    by discriminate.
  assert (Hfree : Forall (fun t => ~ In comma t)
            [lit " 2"; lit ""; lit "10 "; lit "  "; lit "-1"]).
  { repeat constructor; vm_compute; intuition discriminate. }
  split; [exact Hne|]. split; [exact Hfree|].
  destruct (@parse_indexes_of_tokens ToyInt.reader _ Hne Hfree) as [E _].
  split; [exact E|].
  assert (Hne' : [lit "1"; lit "two"; lit "3"] <> []) by discriminate.
  assert (Hfree' : Forall (fun t => ~ In comma t) [lit "1"; lit "two"; lit "3"]).
  { repeat constructor; vm_compute; intuition discriminate. }
  destruct (@parse_indexes_of_tokens ToyInt.reader _ Hne' Hfree') as [_ Hbad].
  apply (Hbad (lit "two")); [simpl; auto | discriminate | reflexivity].
Defined.

(** Text that holds nothing but white space and commas (the empty text in
    particular) is read as the empty selection, not as an error. *)
Theorem parse_indexes_blank `{IntReader} (typed : pystr) :
  (forall c, In c typed -> isspace c = true \/ c = comma) ->
  parse_indexes typed = Some [].
Proof.
  intros Hall. rewrite parse_indexes_unfold.
  assert (E : filter (fun t => negb (is_nil t))
                (map strip (split comma typed)) = []).
  { apply filter_nil_iff. intros t Ht.
    apply in_map_iff in Ht. destruct Ht as (tok & <- & Htok).
    rewrite strip_blank; [reflexivity|].
    apply forallb_forall. intros c Hc.
    destruct (@split_In comma typed tok c Htok Hc) as [Hin Hsep].
    destruct (Hall c Hin); [assumption | contradiction]. }
  rewrite E. reflexivity.
Qed.

Lemma parse_indexes_blank_witness :
  (forall c, In c (lit " , ,, ") -> isspace c = true \/ c = comma) /\
  parse_indexes (H := ToyInt.reader) (lit " , ,, ") = Some [] /\
  parse_indexes (H := ToyInt.reader) (lit "") = Some [].
Proof.
  assert (Hall : forall c, In c (lit " , ,, ") -> isspace c = true \/ c = comma).
  { intros c Hc. vm_compute in Hc.
    repeat (destruct Hc as [<- | Hc]; [vm_compute; auto|]). destruct Hc. }
  split; [exact Hall|].
  split; [exact (@parse_indexes_blank ToyInt.reader _ Hall)|].
  apply (@parse_indexes_blank ToyInt.reader). intros c [].
Defined.

(* ================================================================== *)
(** * How a run ends, and what a selection keeps *)
(* ================================================================== *)

Lemma subseq_refl (A : Type) (l : list A) : subseq l l.
Proof. induction l; constructor; assumption. Qed.

Lemma select_subseq (A : Type) (mask : list bool) (l : list A) :
  subseq (select mask l) l.
Proof.
  revert mask. induction l as [|a l IH]; intros mask.
  - destruct mask; constructor.
  - destruct mask as [|b mask].
    + rewrite select_nil_mask. apply subseq_skip.
      specialize (IH []). rewrite select_nil_mask in IH. exact IH.
    + rewrite select_cons. destruct b; constructor; apply IH.
Qed.

Lemma select_none (A : Type) (mask : list bool) (l : list A) :
  (forall i, i < length l -> nth i mask false = false) -> select mask l = [].
Proof.
  intros Hnone. destruct (select mask l) as [|x rest] eqn:E; [reflexivity|].
  assert (Hx : In x (select mask l)) by (rewrite E; left; reflexivity).
  apply select_In in Hx. destruct Hx as (i & Ei & Mi).
  rewrite Hnone in Mi; [discriminate|].
  apply nth_error_Some. congruence.
Qed.

Lemma select_all (A : Type) (mask : list bool) (l : list A) :
  (forall i, i < length l -> nth i mask false = true) -> select mask l = l.
Proof.
  revert mask. induction l as [|a l IH]; intros mask Hall.
  - destruct mask; reflexivity.
  - destruct mask as [|b mask].
    + specialize (Hall 0 (Nat.lt_0_succ _)). discriminate.
    + rewrite select_cons.
      pose proof (Hall 0 (Nat.lt_0_succ _)) as H0. simpl in H0. subst b.
      f_equal. apply IH. intros i Hi. apply (Hall (S i)). simpl. lia.
Qed.

Lemma bool_list_ext (m1 m2 : list bool) :
  length m1 = length m2 ->
  (forall i, i < length m1 -> nth i m1 false = nth i m2 false) ->
  m1 = m2.
Proof.
  intros Len Hnth. apply (nth_ext m1 m2 false false); assumption.
Qed.

Section Outcomes.

Context `{Runtime}.
Implicit Types (df : DataFrame) (chosen : list pystr).

Lemma is_nil_lookup_mask df (mask : list bool) (n : pystr) :
  is_nil (lookup_all n (cols (getitem_mask df mask)))
  = negb (mem n (columns df)).
Proof.
  destruct (mem n (columns df)) eqn:M.
  - apply mem_In in M. rewrite <- (columns_getitem_mask df mask) in M.
    destruct (lookup_all_present _ _ M) as (c & rest & E & _).
    rewrite E. reflexivity.
  - apply mem_false in M. rewrite <- (columns_getitem_mask df mask) in M.
    apply lookup_all_nil. exact M.
Qed.

(** Lines 117-123 on a valid selection: a frame, or KeyError for the
    metadata names that the table lacks. *)
Lemma filter_and_project_cases df chosen :
  incl chosen (cat_columns_of df) ->
  let absent := filter (fun m => negb (mem m (columns df))) Maker.METADATA_COLUMNS in
  if is_nil absent
  then exists df_final, filter_and_project df chosen = inr df_final
  else filter_and_project df chosen = inl (KeyError absent).
Proof.
  intros Hincl absent.
  assert (Hincl' : incl chosen (columns df)).
  { intros c Hc. apply Hincl in Hc. apply cat_columns_of_In in Hc. tauto. }
  destruct (getitem_list_total df Hincl') as (sub & Esub).
  unfold filter_and_project, row_mask. rewrite Esub. cbn [bind ret].
  set (mask := any_axis1 (nrows df) _).
  unfold getitem_list. cbv zeta.
  assert (E : filter (fun n => is_nil (lookup_all n (cols (getitem_mask df mask))))
                (Maker.METADATA_COLUMNS ++ chosen) = absent).
  { rewrite filter_app.
    assert (E2 : filter (fun n => is_nil (lookup_all n
                     (cols (getitem_mask df mask)))) chosen = []).
    { apply filter_nil_iff. intros c Hc. rewrite is_nil_lookup_mask.
      apply negb_false_iff, mem_In, Hincl', Hc. }
    rewrite E2, app_nil_r. unfold absent. apply filter_ext.
    intros m. apply is_nil_lookup_mask. }
  rewrite E. destruct (is_nil absent); [eauto | reflexivity].
Qed.

Lemma absent_nil_has_metadata df :
  filter (fun m => negb (mem m (columns df))) Maker.METADATA_COLUMNS = [] <->
  has_metadata df = true.
Proof.
  rewrite filter_nil_iff. unfold has_metadata. rewrite forallb_forall.
  split; intros Hall m Hm; specialize (Hall m Hm).
  - apply negb_false_iff. assumption.
  - rewrite Hall. reflexivity.
Qed.

End Outcomes.

(** Every way a run can end, from line 92 on.  Some index outside
    [1, N]: the message of line 111 and nothing else.  All indexes within
    [1, N] and a metadata column missing: KeyError for the missing names
    leaves the function.  Otherwise the snapshot is written.  No other
    exception leaves the function; the list of categories is never
    indexed out of range or from its end. *)
Theorem run_conversion_outcomes `{Runtime} (df : DataFrame)
    (chosen_indexes : list Z) :
  let n := Z.of_nat (length (cat_columns_of df)) in
  let absent := filter (fun m => negb (mem m (columns df))) Maker.METADATA_COLUMNS in
  ((exists idx, In idx chosen_indexes /\ (idx < 1 \/ n < idx)%Z) ->
   run_conversion df chosen_indexes
     = InvalidSelection (invalid_indexes chosen_indexes n)) /\
  ((forall idx, In idx chosen_indexes -> (1 <= idx <= n)%Z) ->
   absent <> [] ->
   run_conversion df chosen_indexes = Uncaught (KeyError absent)) /\
  ((forall idx, In idx chosen_indexes -> (1 <= idx <= n)%Z) ->
   absent = [] ->
   exists df_final wb failure,
     run_conversion df chosen_indexes = Saved df_final wb failure) /\
  (forall e, run_conversion df chosen_indexes = Uncaught e ->
     exists missing, e = KeyError missing /\ missing <> []).
Proof.
  intros n absent.
  assert (Valid : (forall idx, In idx chosen_indexes -> (1 <= idx <= n)%Z) ->
            (absent <> [] ->
             run_conversion df chosen_indexes = Uncaught (KeyError absent)) /\
            (absent = [] ->
             exists df_final wb failure,
               run_conversion df chosen_indexes = Saved df_final wb failure)).
  { intros Hvalid.
    destruct (choose_columns_valid (cat_columns_of df) chosen_indexes Hvalid)
      as (chosen & Ec & _).
    pose proof (choose_columns_incl _ _ Ec) as Hincl.
    pose proof (@filter_and_project_cases _ df chosen Hincl) as Cases.
    cbv zeta in Cases. fold absent in Cases.
    unfold run_conversion. rewrite Ec. split.
    - intros Hne. destruct absent; [congruence|]. simpl in Cases.
      rewrite Cases. reflexivity.
    - intros E. rewrite E in Cases. simpl in Cases.
      destruct Cases as (df_final & Ef). rewrite Ef.
      destruct (write_workbook df_final chosen) as [wb failure]. eauto. }
  split; [|split; [|split]].
  - intros Hbad. unfold run_conversion.
    rewrite (choose_columns_invalid _ _ Hbad). reflexivity.
  - intros Hvalid. apply (Valid Hvalid).
  - intros Hvalid. apply (Valid Hvalid).
  - intros e E.
    assert (Hvalid : forall idx, In idx chosen_indexes -> (1 <= idx <= n)%Z).
    { unfold run_conversion in E.
      destruct (choose_columns (cat_columns_of df) chosen_indexes)
        as [inv | x] eqn:C; [discriminate|].
      apply (choose_columns_in_range _ _ C). }
    destruct (Valid Hvalid) as [Hmiss Hok].
    destruct absent as [|m rest] eqn:A.
    + destruct (Hok eq_refl) as (d & w & f & E'). congruence.
    + rewrite Hmiss in E by discriminate. inversion E.
      exists (m :: rest). split; [reflexivity | discriminate].
Qed.

(** A run with no index selected (the blank answer to the prompt) ends
    without error: the snapshot holds the nine metadata columns and no
    row, and the workbook the sheet "All" only. *)
Theorem empty_selection_saves_empty_snapshot `{Runtime} (df : DataFrame) :
  is_dataset df = true ->
  exists df_final,
    run_conversion df []
      = Saved df_final
          [ {| sheet_name := lit "All"; sheet_data := df_final |} ] None /\
    index df_final = [] /\
    columns df_final = Maker.METADATA_COLUMNS /\
    (forall c, In c (cols df_final) -> snd c = []).
Proof.
  intros Hd.
  assert (Hincl : incl (@nil pystr) (cat_columns_of df)) by (intros c []).
  destruct (@filter_and_project_spec _ df [] Hd Hincl)
    as (mask & df_final & Em & Ef & Ei & Ecols & _ & Al & _).
  pose proof Hd as Hd'. unfold is_dataset in Hd'. rewrite andb_true_iff in Hd'.
  destruct Hd' as [Hf _]. apply is_frame_inv in Hf. destruct Hf as (NDc & _ & _).
  destruct (@row_mask_spec _ df [] NDc) as (mask' & Em' & Len & Spec);
    [intros c []|].
  rewrite Em in Em'. injection Em' as <-.
  assert (Eidx : index df_final = []).
  { rewrite Ei. apply select_none. intros i Hi.
    destruct (nth i mask false) eqn:M; [|reflexivity].
    apply Spec in M; [|exact Hi]. destruct M as (c & [] & _). }
  exists df_final. split; [|split; [exact Eidx|split]].
  - unfold run_conversion. cbn [choose_columns invalid_indexes filter is_nil mapM ret].
    rewrite Ef. reflexivity.
  - rewrite Ecols. apply app_nil_r.
  - intros c Hc. unfold aligned in Al. rewrite forallb_forall in Al.
    specialize (Al c Hc). apply Nat.eqb_eq in Al.
    unfold nrows in Al. rewrite Eidx in Al. destruct (snd c); [reflexivity|].
    discriminate.
Qed.

Lemma empty_selection_saves_empty_snapshot_witness :
  is_dataset Examples.journals_ab = true /\
  exists df_final,
    run_conversion (H := Toy.runtime) Examples.journals_ab []
      = Saved df_final
          [ {| sheet_name := lit "All"; sheet_data := df_final |} ] None /\
    index df_final = [].
Proof.
  assert (Hd : is_dataset Examples.journals_ab = true) by (vm_compute; reflexivity).
  split; [exact Hd|].
  destruct (@empty_selection_saves_empty_snapshot Toy.runtime
              Examples.journals_ab Hd) as (df_final & E & Ei & _).
  exists df_final. split; assumption.
Defined.

Section Selections.

Context `{Runtime}.
Implicit Types (df : DataFrame) (chosen : list pystr).

Lemma row_mask_ext df chosen chosen' mask mask' :
  NoDup (columns df) ->
  incl chosen (columns df) -> incl chosen' (columns df) ->
  row_mask df chosen = inr mask -> row_mask df chosen' = inr mask' ->
  (forall i, i < nrows df ->
     (nth i mask false = true <-> nth i mask' false = true)) ->
  mask = mask'.
Proof.
  intros ND I1 I2 E1 E2 Hiff.
  destruct (@row_mask_spec _ df chosen ND I1) as (m1 & X1 & L1 & _).
  destruct (@row_mask_spec _ df chosen' ND I2) as (m2 & X2 & L2 & _).
  rewrite E1 in X1. injection X1 as <-. rewrite E2 in X2. injection X2 as <-.
  apply bool_list_ext; [congruence|].
  intros i Hi. rewrite L1 in Hi. specialize (Hiff i Hi).
  destruct (nth i mask false), (nth i mask' false); try reflexivity.
  - symmetry. apply Hiff. reflexivity.
  - apply Hiff. reflexivity.
Qed.






End Selections.

(** The rows a selection keeps depend only on which categories are
    selected, not on their order or on repetitions; and selecting the
    categories of two selections together keeps exactly the rows that one
    of the two keeps. *)
Theorem kept_rows_of_selections `{Runtime} (df : DataFrame)
    (chosen chosen' both : list pystr) (mask mask' mask_both : list bool) :
  is_frame df = true ->
  incl chosen (cat_columns_of df) -> incl chosen' (cat_columns_of df) ->
  row_mask df chosen = inr mask ->
  row_mask df chosen' = inr mask' ->
  row_mask df (chosen ++ chosen') = inr mask_both ->
  ((forall c, In c chosen <-> In c chosen') -> mask = mask') /\
  (forall i, nth i mask_both false = nth i mask false || nth i mask' false) /\
  (forall l, In l (index (getitem_mask df mask_both)) <->
             In l (index (getitem_mask df mask)) \/
             In l (index (getitem_mask df mask'))).
Proof.
  intros Hf I1 I2 E1 E2 E3. apply is_frame_inv in Hf.
  destruct Hf as (NDc & NDi & _).
  assert (J : forall l, incl l (cat_columns_of df) -> incl l (columns df)).
  { intros l Hl c Hc. apply Hl in Hc. apply cat_columns_of_In in Hc. tauto. }
  pose proof (J _ I1) as I1'. pose proof (J _ I2) as I2'.
  assert (I3' : incl (chosen ++ chosen') (columns df))
    by (apply incl_app; assumption).
  destruct (@row_mask_spec _ df chosen NDc I1') as (m1 & X1 & L1 & S1).
  destruct (@row_mask_spec _ df chosen' NDc I2') as (m2 & X2 & L2 & S2).
  destruct (@row_mask_spec _ df _ NDc I3') as (m3 & X3 & L3 & S3).
  rewrite E1 in X1. injection X1 as <-. rewrite E2 in X2. injection X2 as <-.
  rewrite E3 in X3. injection X3 as <-.
  assert (Or : forall i, nth i mask_both false
                         = nth i mask false || nth i mask' false).
  { intros i. destruct (Nat.lt_ge_cases i (nrows df)) as [Hi | Hi].
    - apply eq_true_iff_eq. rewrite orb_true_iff, (S1 i Hi), (S2 i Hi), (S3 i Hi).
      split.
      + intros (c & Hc & M). apply in_app_iff in Hc.
        destruct Hc; [left | right]; eauto.
      + intros [(c & Hc & M) | (c & Hc & M)]; exists c;
          (split; [apply in_app_iff; auto | assumption]).
    - rewrite !nth_overflow by lia. reflexivity. }
  split; [|split; [exact Or|]].
  - intros Same.
    apply (@row_mask_ext _ df chosen chosen' mask mask' NDc I1' I2' E1 E2).
    intros i Hi. rewrite (S1 i Hi), (S2 i Hi).
    split; intros (c & Hc & M); exists c; (split; [apply Same|]; assumption).
  - intros l. simpl. rewrite !select_In. split.
    + intros (i & Ei & M). rewrite Or in M. apply orb_true_iff in M.
      destruct M; [left | right]; eauto.
    + intros [(i & Ei & M) | (i & Ei & M)]; exists i;
        (split; [assumption|]); rewrite Or, M; auto using orb_true_r.
Qed.

Lemma kept_rows_of_selections_witness :
  is_frame Examples.journals_c = true /\
  exists mask mask' mask_both,
    row_mask (H := Toy.runtime) Examples.journals_c [lit "c1"] = inr mask /\
    row_mask (H := Toy.runtime) Examples.journals_c [lit "c2"] = inr mask' /\
    row_mask (H := Toy.runtime) Examples.journals_c [lit "c1"; lit "c2"]
      = inr mask_both /\
    forall i, nth i mask_both false = nth i mask false || nth i mask' false.
Proof.
  assert (Hf : is_frame Examples.journals_c = true) by (vm_compute; reflexivity).
  split; [exact Hf|].
  destruct (row_mask (H := Toy.runtime) Examples.journals_c [lit "c1"])
    as [e | mask] eqn:E1; [vm_compute in E1; discriminate|].
  destruct (row_mask (H := Toy.runtime) Examples.journals_c [lit "c2"])
    as [e | mask'] eqn:E2; [vm_compute in E2; discriminate|].
  destruct (row_mask (H := Toy.runtime) Examples.journals_c [lit "c1"; lit "c2"])
    as [e | mask_both] eqn:E3; [vm_compute in E3; discriminate|].
  exists mask, mask', mask_both. repeat split.
  apply (@kept_rows_of_selections Toy.runtime Examples.journals_c
           [lit "c1"] [lit "c2"] [lit "c1"; lit "c2"] mask mask' mask_both Hf);
    try assumption; concrete_incl.
Defined.

(** The rows that are kept stay in the order of the loaded table, in the
    FilteredDataset and in every sheet. *)
Theorem kept_rows_keep_their_order `{Runtime} (df : DataFrame)
    (chosen_indexes : list Z) (df_final : DataFrame) (wb : Workbook)
    (failure : option exn) :
  run_conversion df chosen_indexes = Saved df_final wb failure ->
  subseq (index df_final) (index df) /\
  (forall sh, In sh wb -> subseq (index (sheet_data sh)) (index df_final)).
Proof.
  intros Erun. apply run_conversion_saved in Erun.
  destruct Erun as (chosen & _ & Ef & W).
  apply filter_and_project_inv in Ef. destruct Ef as (mask & _ & Eg).
  apply getitem_list_inv in Eg. destruct Eg as (Ei & _ & _).
  split; [rewrite Ei; apply select_subseq|].
  intros sh Hsh. unfold write_workbook in W.
  destruct (category_sheets_In _ _ _ _ W Hsh) as [X | (cat & _ & Esh)].
  - unfold to_excel in X. simpl in X. destruct X as [<- | []].
    apply subseq_refl.
  - apply category_sheet_inv in Esh. destruct Esh as (texts & _ & _ & Eg & _).
    apply getitem_list_inv in Eg. destruct Eg as (Ei' & _ & _).
    rewrite Ei'. apply select_subseq.
Qed.

Lemma kept_rows_keep_their_order_witness :
  exists df_final wb failure,
    run_conversion (H := Toy.runtime) Examples.journals_ab [2; 1]%Z
      = Saved df_final wb failure /\
    subseq (index df_final) (index Examples.journals_ab).
Proof.
  destruct (run_conversion (H := Toy.runtime) Examples.journals_ab [2; 1]%Z)
    as [inv | e | df_final wb failure] eqn:E;
    [vm_compute in E; discriminate | vm_compute in E; discriminate |].
  exists df_final, wb, failure. split; [reflexivity|].
  apply (@kept_rows_keep_their_order Toy.runtime _ _ _ _ _ E).
Defined.

Section DistinctRuns.

Context `{Runtime}.


End DistinctRuns.








(* ================================================================== *)
(** * load_data (lines 40-75) *)
(* ================================================================== *)

Import Loader.

Lemma rename_targets_are_metadata :
  map rename_label (map fst rename_dict) = Maker.METADATA_COLUMNS.
Proof. reflexivity. Qed.

Lemma rename_label_other (name : pystr) :
  ~ In name (map fst rename_dict) -> rename_label name = name.
Proof.
  intros Hn. unfold rename_label.
  destruct (find (fun kv => eqb (fst kv) name) rename_dict) as [kv|] eqn:F;
    [|reflexivity].
  apply find_some in F. destruct F as [Hin E]. apply eqb_eq in E.
  exfalso. apply Hn. rewrite <- E. apply in_map. assumption.
Qed.

Lemma filter_not_metadata (cats : list pystr) :
  (forall c, In c cats -> ~ In c Maker.METADATA_COLUMNS) ->
  filter (fun col => negb (mem col Maker.METADATA_COLUMNS))
    (Maker.METADATA_COLUMNS ++ cats) = cats.
Proof.
  intros Hnm. rewrite filter_app.
  assert (E1 : filter (fun col => negb (mem col Maker.METADATA_COLUMNS))
                 Maker.METADATA_COLUMNS = []).
  { apply filter_nil_iff. intros a Ha. apply negb_false_iff, mem_In, Ha. }
  rewrite E1. cbn [app].
  induction cats as [|c cats IH]; cbn [filter]; [reflexivity|].
  assert (X : mem c Maker.METADATA_COLUMNS = false)
    by (apply mem_false, Hnm; left; reflexivity).
  rewrite X. cbn [negb]. f_equal. apply IH.
  intros a Ha. apply Hnm. right. assumption.
Qed.

(** A spreadsheet whose nine leading columns come out of the parser as
    "Unnamed: 0" to "Unnamed: 8" is loaded with these nine renamed to the
    metadata names, in the order of METADATA_COLUMNS, and with its other
    labels untouched: the loaded table has all the metadata columns, and
    its categorical columns are the other labels when none of them is a
    metadata name. *)
Theorem excel_load_names_metadata `{Runtime} `{Readers} (file_path : pystr)
    (raw : RawFrame) (cats : list pystr) :
  endswith (lower file_path) (lit ".csv") = false ->
  endswith (lower file_path) (lit ".xlsx")
  || endswith (lower file_path) (lit ".xls") = true ->
  read_excel file_path = Some raw ->
  map fst (raw_cols raw) = map fst rename_dict ++ cats ->
  (forall c, In c cats -> ~ In c (map fst rename_dict)) ->
  exists df,
    load_data file_path = inr df /\
    index df = raw_index raw /\
    columns df = Maker.METADATA_COLUMNS ++ cats /\
    has_metadata df = true /\
    ((forall c, In c cats -> ~ In c Maker.METADATA_COLUMNS) ->
     cat_columns_of df = cats /\
     (NoDup cats -> NoDup (columns df))).
Proof.
  intros Hcsv Hxl Hread Hlabels Hcats.
  exists (astype_str (rename raw)).
  split; [unfold load_data; rewrite Hcsv, Hxl, Hread; reflexivity|].
  split; [reflexivity|].
  assert (Ecols : columns (astype_str (rename raw))
                  = Maker.METADATA_COLUMNS ++ cats).
  { unfold columns, astype_str, rename. cbn [cols raw_cols].
    rewrite !map_map. cbn [fst].
    rewrite <- (map_map fst rename_label), Hlabels, map_app.
    rewrite rename_targets_are_metadata. f_equal.
    rewrite <- (map_id cats) at 2. apply map_ext_in.
    intros c Hc. apply rename_label_other, Hcats, Hc. }
  split; [exact Ecols|]. split.
  - apply has_metadata_incl. rewrite Ecols. apply incl_appl, incl_refl.
  - intros Hnm. split.
    + unfold cat_columns_of. rewrite Ecols. apply filter_not_metadata, Hnm.
    + intros ND. rewrite Ecols.
      apply NoDup_app; [apply METADATA_COLUMNS_NoDup | assumption|].
      intros a Ha Hc. exact (Hnm a Hc Ha).
Qed.

Lemma excel_load_names_metadata_witness :
  endswith (lower (H := Toy.runtime) (lit "Wykaz.XLSX")) (lit ".csv") = false /\
  exists df,
    load_data (H := Toy.runtime) (H0 := ToyFiles.readers) (lit "Wykaz.XLSX")
      = inr df /\
    columns df = Maker.METADATA_COLUMNS ++ [lit "A"; lit "B"] /\
    cat_columns_of df = [lit "A"; lit "B"].
Proof.
  assert (Hcsv : endswith (lower (H := Toy.runtime) (lit "Wykaz.XLSX"))
                   (lit ".csv") = false) by reflexivity.
  split; [exact Hcsv|].
  destruct (@excel_load_names_metadata Toy.runtime ToyFiles.readers
              (lit "Wykaz.XLSX") ToyFiles.sheet [lit "A"; lit "B"] Hcsv)
    as (df & El & _ & Ecols & _ & Hcat).
  - reflexivity.
  - reflexivity.
  - reflexivity.
  - intros c [<- | [<- | []]]; vm_compute; intuition discriminate.
  - exists df. split; [exact El|]. split; [exact Ecols|].
    apply Hcat.
    intros c [<- | [<- | []]]; vm_compute; intuition discriminate.
Defined.

(* ================================================================== *)
(** * What apply_filters shows *)
(* ================================================================== *)

Lemma Pcompare_antisym (m n : positive) :
  Pos.compare_cont Eq n m = CompOpp (Pos.compare_cont Eq m n).
Proof. apply (Pos.compare_antisym m n). Qed.

Lemma SFcompare_antisym (a b : spec_float) (c : comparison) :
  SFcompare a b = Some c -> SFcompare b a = Some (CompOpp c).
Proof.
  destruct a as [sa | sa | | sa ma ea], b as [sb | sb | | sb mb eb]; simpl;
    try discriminate;
    try (intros E; injection E as <-);
    try (destruct sa; reflexivity);
    try (destruct sb; reflexivity);
    try (destruct sa, sb; reflexivity).
  destruct sa, sb; try reflexivity;
    rewrite (Z.compare_antisym ea eb), (Pcompare_antisym ma mb);
    destruct (ea ?= eb)%Z; simpl; try reflexivity;
    destruct (Pos.compare_cont Eq ma mb); reflexivity.
Qed.


(** Of two keys one may stand before the other. *)
Lemma before_total (a b : spec_float) :
  before a b = false -> before b a = true.
Proof.
  unfold before, SFgeb, SFleb.
  destruct (SFcompare b a) as [c|] eqn:E.
  - rewrite (SFcompare_antisym _ _ E).
    destruct a, b; simpl in *; try discriminate; try reflexivity;
      destruct c; simpl; congruence.
  - destruct a, b; simpl in *; try discriminate; reflexivity.
Qed.

Lemma descending_insert (x : spec_float * nat) (l : list (spec_float * nat)) :
  descending (map fst l) = true ->
  descending (map fst (insert_key x l)) = true.
Proof.
  induction l as [|y l IH]; intros Hl; [reflexivity|].
  simpl insert_key. destruct (before (fst x) (fst y)) eqn:B.
  - change (before (fst x) (fst y) && descending (map fst (y :: l)) = true).
    rewrite B, Hl. reflexivity.
  - assert (Hrest : descending (map fst l) = true).
    { destruct l as [|z l]; [reflexivity|].
      simpl in Hl. apply andb_true_iff in Hl. tauto. }
    specialize (IH Hrest).
    destruct l as [|z l].
    + simpl. rewrite (before_total _ _ B). reflexivity.
    + simpl insert_key in *. destruct (before (fst x) (fst z)).
      * change (before (fst y) (fst x)
                && descending (map fst (x :: z :: l)) = true).
        rewrite (before_total _ _ B), IH. reflexivity.
      * change (before (fst y) (fst z)
                && descending (map fst (z :: insert_key x l)) = true).
        simpl in Hl. apply andb_true_iff in Hl. destruct Hl as [Hyz _].
        rewrite Hyz, IH. reflexivity.
Qed.

Lemma descending_sorted (l : list (spec_float * nat)) :
  descending (map fst (fold_right insert_key [] l)) = true.
Proof.
  induction l as [|x l IH]; [reflexivity|].
  simpl. apply descending_insert. exact IH.
Qed.

Lemma in_combine_seq (A : Type) (keys : list A) (k : A) (i : nat) :
  In (k, i) (combine keys (seq 0 (length keys))) -> nth_error keys i = Some k.
Proof.
  intros Hin. apply In_nth_error in Hin. destruct Hin as (j & Ej).
  apply nth_error_combine in Ej. destruct Ej as [E1 E2].
  rewrite nth_error_seq in E2.
  destruct (Nat.ltb_spec j (length keys)); [|discriminate].
  injection E2 as <-. exact E1.
Qed.

(** The sorted frame holds its keys in the sorted order. *)
Lemma take_sort_order_keys (keys : list spec_float) :
  take (sort_order keys) keys
  = map fst (fold_right insert_key [] (combine keys (seq 0 (length keys)))).
Proof.
  unfold sort_order.
  set (sorted := fold_right insert_key [] (combine keys (seq 0 (length keys)))).
  assert (Hall : forall p, In p sorted -> nth_error keys (snd p) = Some (fst p)).
  { intros [k i] Hp. apply in_combine_seq.
    apply (Permutation_in _ (sort_keys_perm _) Hp). }
  clearbody sorted. induction sorted as [|p sorted IH]; [reflexivity|].
  simpl. unfold take in *. simpl.
  rewrite (Hall p (or_introl eq_refl)). simpl. f_equal.
  apply IH. intros q Hq. apply Hall. right. assumption.
Qed.

Lemma take_seq (A : Type) (l : list A) : take (seq 0 (length l)) l = l.
Proof.
  unfold take.
  assert (G : forall start pre,
            length pre = start ->
            flat_map (fun i => match nth_error (pre ++ l) i with
                               | Some a => [a]
                               | None => []
                               end) (seq start (length l)) = l).
  { induction l as [|a l IH]; intros start pre Hpre; [reflexivity|].
    simpl. rewrite nth_error_app2 by lia.
    replace (start - length pre) with 0 by lia. simpl. f_equal.
    specialize (IH (S start) (pre ++ [a])).
    rewrite <- app_assoc in IH. apply IH.
    rewrite length_app. simpl. lia. }
  apply (G 0 []). reflexivity.
Qed.

Lemma take_perm (A : Type) (order : list nat) (l : list A) :
  Permutation order (seq 0 (length l)) -> Permutation (take order l) l.
Proof.
  intros P. rewrite <- (take_seq l) at 2. unfold take.
  apply Permutation_flat_map. exact P.
Qed.

Lemma take_sort_order_perm (A : Type) (keys : list spec_float) (l : list A) :
  length keys = length l -> Permutation (take (sort_order keys) l) l.
Proof.
  intros Len. apply take_perm. rewrite <- Len. apply sort_order_perm.
Qed.

Lemma select_map_self (A : Type) (f : A -> bool) (mask : list bool)
    (l : list A) (x : A) :
  In x (select mask (select (map f l) l)) -> f x = true.
Proof.
  intros Hx. apply select_In in Hx. destruct Hx as (k & Ek & _).
  apply nth_error_In in Ek. apply select_In in Ek.
  destruct Ek as (i & Ei & Mi). apply nth_map_true in Mi.
  destruct Mi as (v & Ev & Fv). congruence.
Qed.

Section Shown.

Context `{Runtime}.
Implicit Types (vdf out : VFrame).

Lemma vgetitem_take_column vdf (order : list nat) (n : pystr) (c : Column) :
  vgetitem vdf n = inr c ->
  vgetitem {| vindex := take order (vindex vdf);
              vcols := map (fun c => (fst c, take_column order (snd c)))
                           (vcols vdf) |} n
  = inr (take_column order c).
Proof.
  unfold vgetitem. cbn [vcols].
  rewrite (lookup_all_map_labels
             (fun c => (fst c, take_column order (snd c))))
    by reflexivity.
  destruct (lookup_all n (vcols vdf)) as [|c0 [|c1 rest]]; simpl;
    try discriminate.
  intros E. inversion E; subst. reflexivity.
Qed.

(** The frame sort_values leaves, for a frame with a numeric "Punkty". *)
Lemma sort_values_desc_spec vdf out (keys : list spec_float) :
  vgetitem vdf (lit "Punkty") = inr (NumCol keys) ->
  sort_values_desc vdf (lit "Punkty") = inr out ->
  vindex out = take (sort_order keys) (vindex vdf) /\
  vgetitem out (lit "Punkty") = inr (NumCol (take (sort_order keys) keys)).
Proof.
  intros Ek. unfold sort_values_desc. rewrite Ek. cbn [bind ret].
  intros E. injection E as <-. split; [reflexivity|].
  change (NumCol (take (sort_order keys) keys))
    with (take_column (sort_order keys) (NumCol keys)).
  apply vgetitem_take_column. exact Ek.
Qed.

(** Lines 195-200 step by step: the rows and keys that reach
    sort_values, and the sorted frame. *)
Lemma filter_rows_shape vdf out (pts : list spec_float)
    (min_points max_points : spec_float) (cat : pystr) :
  vgetitem vdf (lit "Punkty") = inr (NumCol pts) ->
  length pts = length (vindex vdf) ->
  filter_rows vdf min_points max_points cat = inr out ->
  exists mask,
    vindex out
      = take (sort_order (select mask (select (map (in_range min_points
                                                     max_points) pts) pts)))
          (select mask (select (map (in_range min_points max_points) pts)
                          (vindex vdf))) /\
    vgetitem out (lit "Punkty")
      = inr (NumCol
               (take (sort_order (select mask (select (map (in_range
                         min_points max_points) pts) pts)))
                  (select mask (select (map (in_range min_points max_points)
                                          pts) pts)))) /\
    (cat = lit "All" ->
     forall i, i < length (select (map (in_range min_points max_points) pts)
                             pts) ->
               nth i mask false = true) /\
    (cat <> lit "All" ->
     exists texts,
       vgetitem vdf cat = inr (StrCol texts) /\
       mask = map viewer_marked
                (select (map (in_range min_points max_points) pts) texts)).
Proof.
  intros Ep Len. unfold filter_rows. rewrite Ep.
  cbn [bind range_mask ret].
  set (rmask := map (in_range min_points max_points) pts).
  intros E.
  assert (Ep1 : vgetitem (vgetitem_mask vdf rmask) (lit "Punkty")
                = inr (NumCol (select rmask pts)))
    by (apply (vgetitem_mask_column _ rmask _ Ep)).
  destruct (eqb cat (lit "All")) eqn:Ecat; cbn [negb bind ret] in E.
  - exists (map (fun _ => true) (select rmask pts)).
    assert (Hall : forall i, i < length (select rmask pts) ->
              nth i (map (fun _ : spec_float => true) (select rmask pts)) false
              = true).
    { intros i Hi. apply nth_map_true.
      destruct (nth_error (select rmask pts) i) as [v|] eqn:Ev;
        [eauto | apply nth_error_None in Ev; lia]. }
    rewrite (@select_all _ (map (fun _ : spec_float => true)
                              (select rmask pts)) (select rmask pts) Hall).
    rewrite (@select_all _ (map (fun _ : spec_float => true)
                              (select rmask pts)) (select rmask (vindex vdf)))
      by (intros i Hi; apply Hall;
          rewrite (select_length_eq rmask pts (vindex vdf) Len); exact Hi).
    destruct (sort_values_desc_spec _ Ep1 E) as (Ei & Ek).
    split; [exact Ei|]. split; [exact Ek|]. split; [intros _; exact Hall|].
    intros Hne. apply eqb_eq in Ecat. contradiction.
  - destruct (vgetitem vdf cat) as [e|c] eqn:Ec.
    + exfalso. unfold vgetitem in Ec.
      unfold vgetitem at 1 in E. unfold vgetitem_mask in E. cbn [vcols] in E.
      rewrite (lookup_all_map_labels
                 (fun c => (fst c, select_column rmask (snd c)))) in E
        by reflexivity.
      destruct (lookup_all cat (vcols vdf)) as [|c0 [|c1 rest]];
        try discriminate Ec; cbn in E; discriminate E.
    + rewrite (vgetitem_mask_column _ rmask _ Ec) in E.
      destruct c as [texts | nums];
        cbn [select_column category_mask bind ret] in E; [|discriminate].
      set (cmask := map viewer_marked (select rmask texts)) in *.
      exists cmask.
      assert (Ep2 : vgetitem (vgetitem_mask (vgetitem_mask vdf rmask) cmask)
                      (lit "Punkty")
                    = inr (NumCol (select cmask (select rmask pts))))
        by (apply (vgetitem_mask_column _ cmask _ Ep1)).
      destruct (sort_values_desc_spec _ Ep2 E) as (Ei & Ek).
      split; [exact Ei|]. split; [exact Ek|]. split.
      * intros ->. rewrite eqb_refl in Ecat. discriminate.
      * intros _. exists texts. split; reflexivity.
Qed.

End Shown.


Section ShownFrame.

Context `{Runtime}.
Implicit Types (vdf out : VFrame).

(** What "Apply Filters" computes, in the terms of the theorems below:
    the labels and the keys that pass the two masks, rearranged by one
    and the same order, the keys falling. *)
Lemma shown_shape vdf out (pts : list spec_float)
    (min_entry max_entry cat : pystr) :
  vgetitem vdf (lit "Punkty") = inr (NumCol pts) ->
  length pts = length (vindex vdf) ->
  apply_filters vdf min_entry max_entry cat = Shown out ->
  exists min_points max_points mask keys,
    float_of_str min_entry = Some min_points /\
    float_of_str max_entry = Some max_points /\
    Permutation (vindex out)
      (select mask (select (map (in_range min_points max_points) pts)
                      (vindex vdf))) /\
    vgetitem out (lit "Punkty") = inr (NumCol keys) /\
    Permutation keys
      (select mask (select (map (in_range min_points max_points) pts) pts)) /\
    descending keys = true /\
    (cat = lit "All" ->
     select mask (select (map (in_range min_points max_points) pts)
                    (vindex vdf))
     = select (map (in_range min_points max_points) pts) (vindex vdf)) /\
    (cat <> lit "All" ->
     exists texts,
       vgetitem vdf cat = inr (StrCol texts) /\
       mask = map viewer_marked
                (select (map (in_range min_points max_points) pts) texts)).
Proof.
  intros Ep Len A. apply apply_filters_shown in A.
  destruct A as (mn & mx & Emn & Emx & F).
  destruct (@filter_rows_shape _ vdf out pts mn mx cat Ep Len F) as (mask & Ei & Ek & Hall & Hcat).
  set (rmask := map (in_range mn mx) pts) in *.
  assert (Len2 : length (select mask (select rmask pts))
                 = length (select mask (select rmask (vindex vdf)))).
  { apply select_length_eq. apply select_length_eq. exact Len. }
  exists mn, mx, mask,
    (take (sort_order (select mask (select rmask pts)))
       (select mask (select rmask pts))).
  split; [exact Emn|]. split; [exact Emx|]. split.
  { rewrite Ei. apply take_sort_order_perm. exact Len2. }
  split; [exact Ek|]. split.
  { apply take_sort_order_perm. reflexivity. }
  split.
  { rewrite take_sort_order_keys. apply descending_sorted. }
  split; [|exact Hcat].
  intros Ecat. apply select_all. intros i Hi. apply (Hall Ecat).
  rewrite (select_length_eq rmask pts (vindex vdf) Len). exact Hi.
Qed.

End ShownFrame.



(** The table Apply Filters shows is sorted: its "Punkty" column has one
    number per row, every number is within the bounds, and the numbers
    fall from each row to the next. *)
Theorem shown_points_descend_within_bounds `{Runtime}
    (vdf out : VFrame) (pts : list spec_float)
    (min_entry max_entry cat : pystr) :
  vgetitem vdf (lit "Punkty") = inr (NumCol pts) ->
  length pts = length (vindex vdf) ->
  apply_filters vdf min_entry max_entry cat = Shown out ->
  exists min_points max_points keys,
    float_of_str min_entry = Some min_points /\
    float_of_str max_entry = Some max_points /\
    vgetitem out (lit "Punkty") = inr (NumCol keys) /\
    length keys = length (vindex out) /\
    descending keys = true /\
    Forall (fun p => SFleb min_points p = true /\ SFleb p max_points = true)
      keys.
Proof.
  intros Ep Len A.
  destruct (@shown_shape _ vdf out pts min_entry max_entry cat Ep Len A)
    as (mn & mx & mask & keys & Emn & Emx & P & Ek & Pk & D & _ & _).
  exists mn, mx, keys.
  split; [exact Emn|]. split; [exact Emx|]. split; [exact Ek|]. split; [|split].
  - rewrite (Permutation_length Pk), (Permutation_length P).
    apply select_length_eq. apply select_length_eq. exact Len.
  - exact D.
  - apply Forall_forall. intros p Hp.
    apply (Permutation_in _ Pk) in Hp. apply select_map_self in Hp.
    unfold in_range, SFgeb in Hp. apply andb_true_iff in Hp. exact Hp.
Qed.

Lemma shown_points_descend_within_bounds_witness :
  exists vdf out,
    load_database (H := Toy.runtime) Examples.journals_ab = Some vdf /\
    apply_filters (H := Toy.runtime) vdf (lit "0") (lit "200") (lit "All")
      = Shown out /\
    exists keys,
      vgetitem out (lit "Punkty") = inr (NumCol keys) /\
      length keys = 2 /\ descending keys = true.
Proof.
  destruct (load_database (H := Toy.runtime) Examples.journals_ab)
    as [vdf|] eqn:L; [|vm_compute in L; discriminate].
  destruct (apply_filters (H := Toy.runtime) vdf (lit "0") (lit "200")
              (lit "All")) as [| e | out] eqn:A;
    [vm_compute in L; injection L as <-; vm_compute in A; discriminate ..|].
  exists vdf, out. split; [reflexivity|]. split; [exact A|].
  destruct (@load_database_spec Toy.runtime _ _ L) as (texts & Et & Ei & Ep & _).
  assert (Len : length (to_numeric_coerce (H := Toy.runtime) texts)
                = length (vindex vdf)).
  { rewrite Ei. vm_compute in Et. injection Et as <-. reflexivity. }
  destruct (@shown_points_descend_within_bounds Toy.runtime vdf out _
              (lit "0") (lit "200") (lit "All") Ep Len A)
    as (mn & mx & keys & _ & _ & Ek & El & D & _).
  exists keys. split; [exact Ek|]. split; [|exact D].
  rewrite El. vm_compute in L. injection L as <-.
  vm_compute in A. injection A as <-. reflexivity.
Defined.



(* ================================================================== *)
(** * The window: check boxes, table and filters *)
(* ================================================================== *)

Lemma var_position_spec (labels : list pystr) (col : pystr) (p q : nat) :
  App.var_position labels col p = Some q ->
  p <= q /\ nth_error labels (q - p) = Some col.
Proof.
  revert p. induction labels as [|l rest IH]; intros p; simpl; [discriminate|].
  destruct (App.var_position rest col (S p)) as [q'|] eqn:E.
  - intros X. injection X as ->. destruct (IH _ E) as [Hle Hn].
    split; [lia|]. replace (q - p) with (S (q - S p)) by lia. exact Hn.
  - destruct (eqb l col) eqn:El; [|discriminate].
    intros X. injection X as <-. apply eqb_eq in El. subst l.
    split; [lia|]. rewrite Nat.sub_diag. reflexivity.
Qed.

Lemma var_position_In (labels : list pystr) (col : pystr) (p : nat) :
  In col labels -> App.var_position labels col p <> None.
Proof.
  revert p. induction labels as [|l rest IH]; intros p; simpl; [tauto|].
  intros [-> | Hin].
  - destruct (App.var_position rest col (S p)); [discriminate|].
    rewrite eqb_refl. discriminate.
  - specialize (IH (S p) Hin).
    destruct (App.var_position rest col (S p)); [discriminate | contradiction].
Qed.

(** While every variable holds the value its label was created with, the
    visible columns are the labels with the value true. *)
Lemma visible_cols_of_vars (st : App.State) (f : pystr -> bool) :
  App.vars st = map f (map fst (vcols (App.df st))) ->
  App.visible_cols st = filter f (map fst (vcols (App.df st))).
Proof.
  intros Ev. unfold App.visible_cols. apply filter_ext_in. intros col Hin.
  unfold App.column_var.
  destruct (App.var_position (map fst (vcols (App.df st))) col 0) as [q|] eqn:E.
  - apply var_position_spec in E. destruct E as [_ E].
    rewrite Nat.sub_0_r in E. rewrite Ev.
    apply (map_nth_error f) in E.
    apply (nth_error_nth _ _ false) in E. exact E.
  - exfalso. exact (var_position_In _ _ 0 Hin E).
Qed.

Lemma initial_vars_map (loaded : VFrame) :
  App.initial_vars loaded
  = map (fun col => mem col (App.default_cols loaded))
      (map fst (vcols loaded)).
Proof.
  unfold App.initial_vars, App.first_row, App.second_row.
  rewrite <- map_app, firstn_skipn. reflexivity.
Qed.

Lemma populate_table_df (st : App.State) (d : VFrame) :
  App.df (App.populate_table st d) = App.df st.
Proof.
  unfold App.populate_table.
  destruct (is_nil (App.visible_cols st)); reflexivity.
Qed.

Lemma populate_table_current_df (st : App.State) (d : VFrame) :
  App.current_df (App.populate_table st d) = App.current_df st.
Proof.
  unfold App.populate_table.
  destruct (is_nil (App.visible_cols st)); reflexivity.
Qed.

Lemma populate_table_vars (st : App.State) (d : VFrame) :
  App.vars (App.populate_table st d) = App.vars st.
Proof.
  unfold App.populate_table.
  destruct (is_nil (App.visible_cols st)); reflexivity.
Qed.

Lemma visible_cols_ext (st st' : App.State) :
  App.df st' = App.df st -> App.vars st' = App.vars st ->
  App.visible_cols st' = App.visible_cols st.
Proof.
  intros Ed Ev. unfold App.visible_cols, App.column_var.
  rewrite Ed, Ev. reflexivity.
Qed.

(** populate_table leaves the table in step with the frame it was given,
    unless no column is ticked. *)
Lemma populate_table_tree (st : App.State) (d : VFrame) :
  App.visible_cols (App.populate_table st d) <> [] ->
  App.tree (App.populate_table st d)
  = {| App.tree_columns := App.visible_cols (App.populate_table st d);
       App.tree_rows :=
         map (fun i => map (App.row_value d i)
                         (App.visible_cols (App.populate_table st d)))
           (seq 0 (length (vindex d))) |}.
Proof.
  rewrite (visible_cols_ext _ _ (populate_table_df st d)
             (populate_table_vars st d)).
  unfold App.populate_table.
  destruct (is_nil (App.visible_cols st)) eqn:N.
  - apply is_nil_true in N. intros X. contradiction.
  - intros _. reflexivity.
Qed.

Section Window.

Context `{Runtime}.

Lemma step_df (st : App.State) (e : App.event) :
  App.df (App.step st e) = App.df st.
Proof.
  destruct e as [p | lo hi cat]; simpl.
  - unfold App.update_visible_columns. rewrite populate_table_df. reflexivity.
  - unfold App.on_apply_filters.
    destruct (apply_filters (App.df st) lo hi cat); try reflexivity.
    rewrite populate_table_df. reflexivity.
Qed.

Lemma run_df (st : App.State) (events : list App.event) :
  App.df (App.run st events) = App.df st.
Proof.
  revert st. induction events as [|e events IH]; intros st; [reflexivity|].
  unfold App.run in *. simpl. rewrite IH. apply step_df.
Qed.

Lemma step_current_df (st : App.State) (e : App.event) :
  App.current_df (App.step st e)
  = match e with
    | App.Toggle _ => App.current_df st
    | App.ApplyFilters lo hi cat =>
        match apply_filters (App.df st) lo hi cat with
        | Shown out => out
        | _ => App.current_df st
        end
    end.
Proof.
  destruct e as [p | lo hi cat]; simpl.
  - unfold App.update_visible_columns.
    rewrite populate_table_current_df. reflexivity.
  - unfold App.on_apply_filters.
    destruct (apply_filters (App.df st) lo hi cat); try reflexivity.
    rewrite populate_table_current_df. reflexivity.
Qed.

Lemma run_current_df (loaded : VFrame) (st : App.State)
    (events : list App.event) :
  App.df st = loaded ->
  App.current_df (App.run st events)
  = App.last_shown loaded (App.current_df st) events.
Proof.
  revert st. induction events as [|e events IH]; intros st Ed; [reflexivity|].
  unfold App.run in *. simpl fold_left.
  rewrite IH by (rewrite step_df; exact Ed).
  rewrite step_current_df, Ed.
  destruct e as [p | lo hi cat]; simpl; [reflexivity|].
  destruct (apply_filters loaded lo hi cat); reflexivity.
Qed.




Lemma init_fields (loaded : VFrame) :
  App.df (App.init loaded) = loaded /\
  App.current_df (App.init loaded) = loaded /\
  App.vars (App.init loaded) = App.initial_vars loaded.
Proof.
  unfold App.init.
  rewrite populate_table_df, populate_table_current_df, populate_table_vars.
  repeat split.
Qed.

End Window.

(** Apply Filters always filters the frame that was loaded, never the
    rows currently shown, so filters do not add up: after any clicks, the
    frame kept by a successful Apply Filters depends on the loaded frame
    and the three entries only; a rejected or crashed one changes nothing
    at all; ticking a check box never changes which rows are current. *)
Theorem filters_start_from_loaded_frame `{Runtime}
    (loaded : VFrame) (events : list App.event) :
  App.df (App.run (App.init loaded) events) = loaded /\
  (forall lo hi cat out,
     apply_filters loaded lo hi cat = Shown out ->
     App.current_df
       (App.step (App.run (App.init loaded) events)
          (App.ApplyFilters lo hi cat)) = out) /\
  (forall lo hi cat,
     (forall out, apply_filters loaded lo hi cat <> Shown out) ->
     App.step (App.run (App.init loaded) events) (App.ApplyFilters lo hi cat)
     = App.run (App.init loaded) events) /\
  (forall p,
     App.current_df (App.step (App.run (App.init loaded) events)
                       (App.Toggle p))
     = App.current_df (App.run (App.init loaded) events)) /\
  App.current_df (App.run (App.init loaded) events)
  = App.last_shown loaded loaded events.
Proof.
  destruct (init_fields loaded) as (Ed & Ec & _).
  assert (Edf : App.df (App.run (App.init loaded) events) = loaded)
    by (rewrite run_df; exact Ed).
  split; [exact Edf|]. split; [|split; [|split]].
  - intros lo hi cat out A. rewrite step_current_df, Edf, A. reflexivity.
  - intros lo hi cat Hno. simpl. unfold App.on_apply_filters. rewrite Edf.
    destruct (apply_filters loaded lo hi cat) as [| e | out] eqn:A;
      try reflexivity.
    exfalso. exact (Hno out eq_refl).
  - intros p. rewrite step_current_df. reflexivity.
  - rewrite (@run_current_df _ loaded (App.init loaded) events Ed), Ec.
    reflexivity.
Qed.



(** What the window shows first.  The ticked columns are the labels of
    the frame that are "Tytuł 1", "Punkty", "issn" or categorical, in the
    order of the frame; for a frame whose columns are the metadata
    columns followed by categories these are "Tytuł 1", "issn", "Punkty"
    and every category, and the table has one line per row of the
    frame. *)
Theorem initial_view_shows_default_columns (loaded : VFrame) :
  App.visible_cols (App.init loaded)
  = filter (fun col => mem col (App.default_cols loaded))
      (map fst (vcols loaded)) /\
  (forall chosen,
     map fst (vcols loaded) = Maker.METADATA_COLUMNS ++ chosen ->
     (forall c, In c chosen -> ~ In c Maker.METADATA_COLUMNS) ->
     App.visible_cols (App.init loaded)
     = [lit "Tytuł 1"; lit "issn"; lit "Punkty"] ++ chosen /\
     App.tree_columns (App.tree (App.init loaded))
     = [lit "Tytuł 1"; lit "issn"; lit "Punkty"] ++ chosen /\
     length (App.tree_rows (App.tree (App.init loaded)))
     = length (vindex loaded)).
Proof.
  assert (Ev : App.visible_cols (App.init loaded)
               = filter (fun col => mem col (App.default_cols loaded))
                   (map fst (vcols loaded))).
  { rewrite (visible_cols_of_vars (App.init loaded)
               (fun col => mem col (App.default_cols loaded))).
    - unfold App.init. rewrite populate_table_df. reflexivity.
    - unfold App.init. rewrite populate_table_vars, populate_table_df.
      apply initial_vars_map. }
  split; [exact Ev|].
  intros chosen Ecols Hnm.
  assert (Evis : App.visible_cols (App.init loaded)
                 = [lit "Tytuł 1"; lit "issn"; lit "Punkty"] ++ chosen).
  { rewrite Ev. unfold App.default_cols, cat_columns.
    rewrite Ecols, viewer_metadata_same, (filter_not_metadata _ Hnm).
    rewrite filter_app. f_equal.
    - transitivity
        (filter (fun col => mem col [lit "Tytuł 1"; lit "Punkty"; lit "issn"])
           Maker.METADATA_COLUMNS); [|reflexivity].
      apply filter_ext_in. intros m Hm.
      destruct (mem m ([lit "Tytuł 1"; lit "Punkty"; lit "issn"] ++ chosen))
        eqn:E1.
      + apply mem_In in E1. apply in_app_iff in E1.
        destruct E1 as [E1 | E1]; [symmetry; apply mem_In; exact E1|].
        exfalso. exact (Hnm m E1 Hm).
      + apply mem_false in E1. symmetry. apply mem_false.
        intros X. apply E1. apply in_app_iff. left. exact X.
    - apply forallb_filter_id. apply forallb_forall. intros c Hc.
      apply mem_In. apply in_app_iff. right. exact Hc. }
  split; [exact Evis|].
  assert (Hne : App.visible_cols (App.init loaded) <> [])
    by (rewrite Evis; discriminate).
  unfold App.init in Hne |- *.
  rewrite (populate_table_tree _ _ Hne). cbn [App.tree_columns App.tree_rows].
  split; [exact Evis|].
  rewrite length_map, length_seq. reflexivity.
Qed.

Lemma load_database_total `{Runtime} (snapshot : DataFrame)
    (texts : list pystr) :
  column snapshot (lit "Punkty") = Some texts ->
  exists vdf,
    load_database snapshot = Some vdf /\
    map fst (vcols vdf) = columns snapshot.
Proof.
  unfold column, load_database, getitem_col.
  destruct (lookup_all (lit "Punkty") (cols snapshot)) as [|c [|c' rest]];
    try discriminate.
  intros _. cbn [ret]. eexists. split; [reflexivity|].
  cbn [vcols]. unfold columns. rewrite map_map. apply map_ext.
  intros a. destruct (eqb (fst a) (lit "Punkty")); reflexivity.
Qed.

(** The converter and the viewer fit together.  Every snapshot a run of
    the converter saves is one the viewer loads: it keeps the row labels,
    its columns are the metadata columns followed by the chosen
    categories, the category box offers "All" and then the chosen
    categories, "Punkty" is a numeric column with one number per row, and
    (no index given twice) every chosen category is a text column with
    one cell per row. *)
Theorem saved_snapshot_opens_in_viewer `{Runtime}
    (df : DataFrame) (chosen_indexes : list Z)
    (df_final : DataFrame) (wb : Workbook) (failure : option exn) :
  is_frame df = true ->
  run_conversion df chosen_indexes = Saved df_final wb failure ->
  exists chosen vdf pts,
    choose_columns (cat_columns_of df) chosen_indexes = inr (inr chosen) /\
    load_database df_final = Some vdf /\
    vindex vdf = index df_final /\
    map fst (vcols vdf) = Maker.METADATA_COLUMNS ++ chosen /\
    Viewer.options vdf = lit "All" :: chosen /\
    vgetitem vdf (lit "Punkty") = inr (NumCol pts) /\
    length pts = length (vindex vdf) /\
    (NoDup chosen_indexes ->
     forall c, In c chosen ->
       exists texts,
         vgetitem vdf c = inr (StrCol texts) /\
         length texts = length (vindex vdf)).
Proof.
  intros Hf Erun.
  assert (Hd : is_dataset df = true).
  { unfold is_dataset. rewrite Hf, (saved_has_metadata _ _ Erun). reflexivity. }
  apply is_frame_inv in Hf. destruct Hf as (NDc & _ & _).
  apply run_conversion_saved in Erun. destruct Erun as (chosen & Ec & Ef & _).
  pose proof (choose_columns_incl _ _ Ec) as Hincl.
  destruct (@filter_and_project_spec _ df chosen Hd Hincl)
    as (mask & d & _ & Ef' & Ei & Ecols & _ & _ & Hmeta & Hcat).
  rewrite Ef in Ef'. injection Ef' as <-.
  assert (Hnm : forall c, In c chosen -> ~ In c Maker.METADATA_COLUMNS)
    by (intros c; apply chosen_not_metadata with (df := df); assumption).
  destruct (Hmeta (lit "Punkty")) as (col & Ecol & Lcol & Efin).
  { apply mem_In. reflexivity. }
  destruct (load_database_total _ Efin) as (vdf & L & Elab).
  destruct (@load_database_spec _ _ _ L) as (texts & Et & Evi & Ep & Hother).
  assert (texts = select mask col) by congruence. subst texts.
  exists chosen, vdf, (to_numeric_coerce (select mask col)).
  split; [exact Ec|]. split; [exact L|]. split; [exact Evi|].
  split; [rewrite Elab; exact Ecols|]. split.
  { unfold Viewer.options, cat_columns.
    rewrite Elab, Ecols, viewer_metadata_same, (filter_not_metadata _ Hnm).
    reflexivity. }
  split; [exact Ep|]. split.
  { unfold to_numeric_coerce. rewrite length_map, Evi, Ei.
    apply select_length_eq. exact Lcol. }
  intros NDi c Hc.
  pose proof (choose_columns_NoDup (cat_columns_of_NoDup _ NDc) NDi Ec) as NDch.
  destruct (Hcat NDch c Hc) as (ccol & Eccol & Lccol & Ecfin).
  exists (select mask ccol). split.
  - apply Hother; [|exact Ecfin].
    intros ->. apply (Hnm (lit "Punkty") Hc). apply mem_In. reflexivity.
  - rewrite Evi, Ei. apply select_length_eq. exact Lccol.
Qed.

Lemma saved_snapshot_opens_in_viewer_witness :
  is_frame Examples.journals_c = true /\
  exists df_final wb failure vdf,
    run_conversion (H := Toy.runtime) Examples.journals_c [3; 1]%Z
      = Saved df_final wb failure /\
    load_database (H := Toy.runtime) df_final = Some vdf /\
    Viewer.options vdf = [lit "All"; lit "c3"; lit "c1"].
Proof.
  assert (Hf : is_frame Examples.journals_c = true) by (vm_compute; reflexivity).
  split; [exact Hf|].
  destruct (run_conversion (H := Toy.runtime) Examples.journals_c [3; 1]%Z)
    as [inv | e | df_final wb failure] eqn:E;
    [vm_compute in E; discriminate | vm_compute in E; discriminate |].
  destruct (@saved_snapshot_opens_in_viewer Toy.runtime Examples.journals_c
              [3; 1]%Z df_final wb failure Hf E)
    as (chosen & vdf & pts & Ec & L & _ & _ & Eo & _).
  exists df_final, wb, failure, vdf.
  split; [reflexivity|]. split; [exact L|].
  vm_compute in Ec. injection Ec as <-. exact Eo.
Defined.
